(** * A terminal dashboard: focus, command dispatch and output pane

    Shallow embedding of [src/app/vis.go].  The program is a Bubble Tea
    application: a [model] value is threaded through [Update] by the event
    loop, [View] renders it, and a background goroutine started by [Init]
    connects to two TCP ports and reads lines from the second one.

    - Go [int] is a 64-bit integer, modelled in [Z] with its wrap-around.
    - A run-time panic (index out of range) is an explicit outcome.
    - Everything the code does to the outside world (dialling, writing to a
      connection, printing on stderr, taking the mutex, reading or replacing
      the content of the output pane) is recorded in an effect trace.
    - The list and viewport widgets come from the Bubbles library.  Their
      observable state is a record; their key handling ([Update]) and the
      text they show ([View]) are parameters of the development (class
      [Components]).  Theorems that need more than that of a widget say so
      in a hypothesis ([keeps_content], [keeps_title_and_delegate]).
      Concrete runs use a simple instance of the widgets ([arrows]), whose
      viewport shows a window of Height lines of Width characters.
    - [Init] has a value receiver: the goroutine it starts works on a copy
      of the model.  The running program is therefore a pair of models that
      share the array of panes and nothing else ([world]). *)

From Stdlib Require Import ZArith Ascii String List Bool Lia.
From stdpp Require Import base list strings.

Open Scope Z_scope.

(** ** Go integers *)

Definition wrap (z : Z) : Z := (z + 2 ^ 63) mod 2 ^ 64 - 2 ^ 63.
Definition int_add (a b : Z) : Z := wrap (a + b).
Definition int_sub (a b : Z) : Z := wrap (a - b).
(* Go's / and % truncate towards zero. *)
Definition int_div (a b : Z) : Z := wrap (Z.quot a b).
Definition int_rem (a b : Z) : Z := Z.rem a b.

(* "\n" *)
Definition newline : string := String "010"%char EmptyString.

(* len(s) of a slice *)
Definition len {A} (l : list A) : Z := Z.of_nat (length l).

(** ** Outcomes, effects and the monad of the program *)

Inductive conn := Conn (addr : string).

Inductive effect :=
| EDial (addr : string)              (* net.Dial("tcp", addr) *)
| EStderr (text : string)            (* fmt.Fprintf(os.Stderr, ...) *)
| EWrite (c : conn) (data : string)  (* c.Write([]byte(data)) *)
| EGo (fn : string)                  (* go m.fn() *)
| ELock                              (* m.mu.Lock() *)
| EUnlock                            (* m.mu.Unlock() *)
| EBufRead                           (* m.outputPane.View() *)
| EBufWrite.                         (* m.outputPane.SetContent(...) *)

Inductive outcome (A : Type) :=
| Ok (a : A)
| Panic (why : string).
Arguments Ok {A} a.
Arguments Panic {A} why.

(* A computation performs effects and then returns or panics. *)
Definition M (A : Type) : Type := list effect * outcome A.

Definition effects {A} (c : M A) : list effect := fst c.
Definition result {A} (c : M A) : outcome A := snd c.

#[global] Instance M_ret : MRet M := fun A a => ([], Ok a).
#[global] Instance M_bind : MBind M := fun A B f c =>
  match c with
  | (tr, Ok a) => let '(tr', r) := f a in (tr ++ tr', r)
  | (tr, Panic why) => (tr, Panic why)
  end.

Definition emit (e : effect) : M unit := ([e], Ok tt).
Definition panic {A} (why : string) : M A := ([], Panic why).

(* The run-time error of a method call or field access through nil. *)
Definition nil_dereference : string :=
  "invalid memory address or nil pointer dereference".

(* s[i] for a Go int i: panics outside 0 <= i < len(s). *)
Definition index {A} (s : list A) (i : Z) : M A :=
  if (0 <=? i) && (i <? len s) then
    match s !! Z.to_nat i with
    | Some a => mret a
    | None => panic "index out of range"
    end
  else panic "index out of range".

(** ** Messages and commands of the runtime *)

Inductive Msg :=
| WindowSizeMsg (Width Height : Z)
| KeyMsg (key : string)               (* key is msg.String() *)
| OtherMsg (tag : string).            (* any other message type *)

Inductive Cmd :=
| CmdNil                              (* nil *)
| CmdQuit                             (* tea.Quit *)
| CmdLib (tag : string).              (* a command built by a widget *)

(** ** Items and the delegate *)

Record menuItem := { title : string; desc : string; selected : bool }.

Definition FilterValue (m : menuItem) : string := title m.

(* styles is never set nor read by the program. *)
Record customDelegate := { delegate_focused : bool }.

(** ** The list widget, as far as the program observes it

    [menuItem] is the only type of the program that implements [list.Item],
    so [[]list.Item] is a list of [menuItem] and the type assertions
    [item.(menuItem)] succeed. *)

Record list_Model := {
  Title : string;
  list_items : list menuItem;
  list_index : Z;
  delegate : customDelegate;
  list_width : Z;
  list_height : Z
}.

Definition Items (l : list_Model) : list menuItem := list_items l.
Definition Index (l : list_Model) : Z := list_index l.

Definition SetItems (its : list menuItem) (l : list_Model) : list_Model :=
  {| Title := Title l; list_items := its; list_index := list_index l;
     delegate := delegate l; list_width := list_width l;
     list_height := list_height l |}.

Definition SetDelegate (d : customDelegate) (l : list_Model) : list_Model :=
  {| Title := Title l; list_items := list_items l; list_index := list_index l;
     delegate := d; list_width := list_width l;
     list_height := list_height l |}.

Definition SetWidth (w : Z) (l : list_Model) : list_Model :=
  {| Title := Title l; list_items := list_items l; list_index := list_index l;
     delegate := delegate l; list_width := w;
     list_height := list_height l |}.

Definition SetHeight (h : Z) (l : list_Model) : list_Model :=
  {| Title := Title l; list_items := list_items l; list_index := list_index l;
     delegate := delegate l; list_width := list_width l;
     list_height := h |}.

(* list.New(items, delegate, width, height), then l.Title = title *)
Definition list_New (its : list menuItem) (d : customDelegate) (w h : Z)
    (t : string) : list_Model :=
  {| Title := t; list_items := its; list_index := 0; delegate := d;
     list_width := w; list_height := h |}.

(** ** The viewport widget *)

Record viewport_Model := {
  content : string;
  Width : Z;
  Height : Z;
  YOffset : Z
}.

Definition viewport_New (w h : Z) : viewport_Model :=
  {| content := EmptyString; Width := w; Height := h; YOffset := 0 |}.

Definition SetContent (s : string) (v : viewport_Model) : viewport_Model :=
  {| content := s; Width := Width v; Height := Height v;
     YOffset := YOffset v |}.

Definition set_Width (w : Z) (v : viewport_Model) : viewport_Model :=
  {| content := content v; Width := w; Height := Height v;
     YOffset := YOffset v |}.

Definition set_Height (h : Z) (v : viewport_Model) : viewport_Model :=
  {| content := content v; Width := Width v; Height := h;
     YOffset := YOffset v |}.

(** ** Library behaviour taken as a parameter *)

Class Components := {
  (* list.Model.Update *)
  list_Update : list_Model -> Msg -> list_Model * Cmd;
  (* viewport.Model.Update *)
  viewport_Update : viewport_Model -> Msg -> viewport_Model * Cmd;
  (* list.Model.View *)
  list_View : list_Model -> string;
  (* viewport.Model.View: the text of the window that is shown, which the
     library computes from the content, the size and the offset *)
  viewport_View : viewport_Model -> string
}.

(** ** The model *)

Record pane := {
  pane_title : string;
  items : list_Model;
  isMenu : bool;
  focused : bool
}.

(* The mutex [mu] holds no data: taking and releasing it are the effects
   [ELock] and [EUnlock]. *)
Record model := {
  focusIndex : Z;
  topPanes : list pane;
  outputPane : viewport_Model;
  outputPaneFocused : bool;
  conn9001 : option conn;
  conn9002 : option conn;
  width : Z;
  height : Z
}.

Definition port9001 : string := "localhost:9001".
Definition port9002 : string := "localhost:9002".

Inductive border := borderStyle | focusedBorderStyle.

(** Field updates, one per assignment form of the source. *)

Definition set_items (l : list_Model) (p : pane) : pane :=
  {| pane_title := pane_title p; items := l; isMenu := isMenu p;
     focused := focused p |}.

Definition set_focused (b : bool) (p : pane) : pane :=
  {| pane_title := pane_title p; items := items p; isMenu := isMenu p;
     focused := b |}.

Definition set_focusIndex (i : Z) (m : model) : model :=
  {| focusIndex := i; topPanes := topPanes m; outputPane := outputPane m;
     outputPaneFocused := outputPaneFocused m; conn9001 := conn9001 m;
     conn9002 := conn9002 m; width := width m; height := height m |}.

Definition set_topPanes (ps : list pane) (m : model) : model :=
  {| focusIndex := focusIndex m; topPanes := ps; outputPane := outputPane m;
     outputPaneFocused := outputPaneFocused m; conn9001 := conn9001 m;
     conn9002 := conn9002 m; width := width m; height := height m |}.

Definition set_outputPane (v : viewport_Model) (m : model) : model :=
  {| focusIndex := focusIndex m; topPanes := topPanes m; outputPane := v;
     outputPaneFocused := outputPaneFocused m; conn9001 := conn9001 m;
     conn9002 := conn9002 m; width := width m; height := height m |}.

Definition set_outputPaneFocused (b : bool) (m : model) : model :=
  {| focusIndex := focusIndex m; topPanes := topPanes m;
     outputPane := outputPane m; outputPaneFocused := b;
     conn9001 := conn9001 m; conn9002 := conn9002 m; width := width m;
     height := height m |}.

Definition set_conn9001 (c : option conn) (m : model) : model :=
  {| focusIndex := focusIndex m; topPanes := topPanes m;
     outputPane := outputPane m; outputPaneFocused := outputPaneFocused m;
     conn9001 := c; conn9002 := conn9002 m; width := width m;
     height := height m |}.

Definition set_conn9002 (c : option conn) (m : model) : model :=
  {| focusIndex := focusIndex m; topPanes := topPanes m;
     outputPane := outputPane m; outputPaneFocused := outputPaneFocused m;
     conn9001 := conn9001 m; conn9002 := c; width := width m;
     height := height m |}.

Definition set_size (w h : Z) (m : model) : model :=
  {| focusIndex := focusIndex m; topPanes := topPanes m;
     outputPane := outputPane m; outputPaneFocused := outputPaneFocused m;
     conn9001 := conn9001 m; conn9002 := conn9002 m; width := w;
     height := h |}.

(* m.topPanes[i].f = ... : panics when i is out of range. *)
Definition update_pane (i : Z) (f : pane -> pane) (m : model) : M model :=
  _ ← index (topPanes m) i;
  mret (set_topPanes (alter f (Z.to_nat i) (topPanes m)) m).

(** ** customDelegate.Render

    The text written to [w].  The arguments [index] and [item] are not
    used by the body: every call writes one line for every item of [m]. *)

Definition render_row (d : customDelegate) (m : list_Model) (i : nat)
    (menuItem : menuItem) : string :=
  let selector := "[ ]" in
  let selector := if selected menuItem then "[x]" else selector in
  let selector :=
    if String.eqb (Title m) "Commands" then EmptyString else selector in
  let cursor :=
    if (Z.of_nat i =? Index m) && delegate_focused d then ">" else " " in
  cursor +:+ " " +:+ selector +:+ " " +:+ title menuItem.

Definition Render (d : customDelegate) (m : list_Model) (index : Z)
    (item : menuItem) : string :=
  let pageItems := Items m in
  String.concat EmptyString
    (imap (fun i item => render_row d m i item +:+ newline) pageItems).

(** ** initialModel and createList *)

(* menuItem{title: t} *)
Definition plain_item (t : string) : menuItem :=
  {| title := t; desc := EmptyString; selected := false |}.

Definition createList (title : string) (items : list string) (height : Z)
    (focused : bool) : list_Model :=
  let itemList := map (fun item => plain_item item) items in
  let listHeight := len items in
  let listHeight := if listHeight >? height then height else listHeight in
  let delegate := {| delegate_focused := focused |} in
  list_New itemList delegate 20 listHeight title.

Definition initialModel : model :=
  let pane1ItemList := ["Option A"; "Option B"; "Option C"] in
  let pane2ItemList := ["Option X"; "Option Y"; "Option Z"] in
  let commands := ["Cmd 1"; "Cmd 2"; "Cmd 3"; "Exit"] in
  let pane4Itemlist := ["Opt 1"; "Opt 2"; "Opt 3"] in
  let panes :=
    [ {| pane_title := "Pane 1";
         items := createList "Pane 1" pane1ItemList 10 true;
         isMenu := true; focused := true |};
      {| pane_title := "Pane 2";
         items := createList "Pane 2" pane2ItemList 10 false;
         isMenu := true; focused := false |};
      {| pane_title := "Commands";
         items := createList "Commands" commands 10 false;
         isMenu := false; focused := false |};
      {| pane_title := "Pane 4";
         items := createList "Pane 4" pane4Itemlist 10 false;
         isMenu := true; focused := false |} ] in
  let output := viewport_New 100 20 in
  let output := SetContent "Welcome to the TUI!" output in
  {| focusIndex := 0; topPanes := panes; outputPane := output;
     outputPaneFocused := false; conn9001 := None; conn9002 := None;
     width := 0; height := 0 |}.

(** ** updatePaneDelegates *)

Definition updatePaneDelegates (m : model) : model :=
  set_topPanes
    (imap (fun i p =>
       set_items
         (SetDelegate {| delegate_focused := Z.of_nat i =? focusIndex m |}
            (items p)) p)
       (topPanes m)) m.

(** ** The background side: connectToServer, listenToServer *)

(* What net.Dial returns: a connection, or an error (and a nil connection). *)
Definition dial_result : Type := conn + string.

Definition dialled (r : dial_result) : option conn :=
  match r with inl c => Some c | inr _ => None end.

(* Returns the receiver and whether the reader goroutine was started. *)
Definition connectToServer (dial : string -> dial_result) (m : model)
    : M (model * bool) :=
  _ ← emit (EDial port9001);
  let r := dial port9001 in
  let m := set_conn9001 (dialled r) m in
  _ ← match r with
      | inr err =>
          emit (EStderr ("Error connecting to port 9001: " +:+ err +:+ newline))
      | inl _ => mret tt
      end;
  _ ← emit (EDial port9002);
  let r := dial port9002 in
  let m := set_conn9002 (dialled r) m in
  match r with
  | inr err =>
      _ ← emit (EStderr ("Error connecting to port 9002: " +:+ err
                           +:+ newline));
      mret (m, false)
  | inl _ =>
      _ ← emit (EGo "listenToServer");
      mret (m, true)
  end.

(* What reader.ReadString returns: a line with its newline, or an error. *)
Definition read_result : Type := string + string.

Section Program.
Context `{Components}.

(* One turn of the loop of listenToServer; false when the loop is left. *)
Definition listen_turn (r : read_result) (m : model) : M (model * bool) :=
  match r with
  | inr err =>
      _ ← emit (EStderr ("Error reading from port 9002: " +:+ err
                           +:+ newline));
      mret (m, false)
  | inl message =>
      _ ← emit ELock;
      _ ← emit EBufRead;
      let old := viewport_View (outputPane m) in
      _ ← emit EBufWrite;
      let m := set_outputPane (SetContent (old +:+ message) (outputPane m)) m in
      _ ← emit EUnlock;
      mret (m, true)
  end.

(* The loop of listenToServer on the reads that arrive.  It is left by the
   return after a read error and in no other way: the flag tells whether
   the call has returned.  When the reads given are used up without an
   error the call is still waiting in ReadString, and the model is the one
   it holds then. *)
Fixpoint listen_loop (reads : list read_result) (m : model)
    : M (model * bool) :=
  match reads with
  | [] => mret (m, false)
  | r :: reads =>
      '(m, again) ← listen_turn r m;
      if again : bool then listen_loop reads m else mret (m, true)
  end.

(* The reader is made over m.conn9002.  Over a nil connection the first
   ReadString calls Read through nil and panics; connectToServer starts
   listenToServer only when the connection is there. *)
Definition listenToServer (reads : list read_result) (m : model)
    : M (model * bool) :=
  match conn9002 m with
  | None => panic nil_dereference
  | Some _ => listen_loop reads m
  end.

Definition addToOutputPane (txt : string) (m : model) : M model :=
  _ ← emit ELock;
  _ ← emit EBufRead;
  let old := viewport_View (outputPane m) in
  _ ← emit EBufWrite;
  let m := set_outputPane (SetContent (old +:+ txt) (outputPane m)) m in
  _ ← emit EUnlock;
  mret m.

(** ** Init

    [Init] has a value receiver: it works on its own copy of the model and
    starts [connectToServer] on that copy.  The result is the copy as the
    goroutine receives it, and the returned command.  The slice [topPanes]
    of the copy shares its array with the caller's, so the widths set here
    are seen by the caller too; the other fields are not shared. *)

Definition Init (m : model) : M (model * Cmd) :=
  let m := set_size 80 24 m in
  let m :=
    set_topPanes
      (map (fun p =>
         set_items (SetWidth (int_sub (int_div (width m) 4) 2) (items p)) p)
         (topPanes m)) m in
  let m := set_outputPane (set_Width (int_sub (width m) 2) (outputPane m)) m in
  let m :=
    set_outputPane (set_Height (int_div (height m) 2) (outputPane m)) m in
  _ ← emit (EGo "connectToServer");
  mret (m, CmdNil).

(** ** Update *)

(* The write method of a connection: [None] is a nil error. *)
Definition writer : Type := conn -> string -> option string.

(* "Update the focused component", the end of Update. *)
Definition update_focused (m : model) (msg : Msg) : M (model * Cmd) :=
  if focusIndex m <? len (topPanes m) then
    p ← index (topPanes m) (focusIndex m);
    let '(l, cmd) := list_Update (items p) msg in
    m ← update_pane (focusIndex m) (set_items l) m;
    mret (m, cmd)
  else
    let '(v, cmd) := viewport_Update (outputPane m) msg in
    mret (set_outputPane v m, cmd).

Definition resize (Width Height : Z) (m : model) : model :=
  let m := set_size Width Height m in
  let paneHeight := int_sub (int_div (height m) 2) 2 in
  let m :=
    set_topPanes
      (map (fun p =>
         let numItems := len (Items (items p)) in
         let displayHeight := paneHeight in
         let displayHeight :=
           if numItems <? paneHeight then numItems else displayHeight in
         set_items (SetHeight displayHeight (items p)) p)
         (topPanes m)) m in
  let m := set_outputPane (set_Width (int_sub (width m) 2) (outputPane m)) m in
  set_outputPane (set_Height (int_div (height m) 2) (outputPane m)) m.

Definition key_tab (m : model) : M model :=
  let previousFocusIndex := focusIndex m in
  let m :=
    set_focusIndex
      (int_rem (int_add (focusIndex m) 1) (int_add (len (topPanes m)) 1)) m in
  m ← (if previousFocusIndex <? len (topPanes m)
       then update_pane previousFocusIndex (set_focused false) m
       else mret (set_outputPaneFocused false m));
  m ← (if focusIndex m <? len (topPanes m)
       then update_pane (focusIndex m) (set_focused true) m
       else mret (set_outputPaneFocused true m));
  mret (updatePaneDelegates m).

Definition toggle (item : menuItem) : menuItem :=
  {| title := title item; desc := desc item;
     selected := negb (selected item) |}.

Definition key_space (m : model) (msg : Msg) : M (model * Cmd) :=
  m ← (if focusIndex m <? len (topPanes m) then
         p ← index (topPanes m) (focusIndex m);
         if isMenu p then
           let index_ := Index (items p) in
           let items_ := Items (items p) in
           item ← index items_ index_;
           let item := toggle item in
           let items_ := <[Z.to_nat index_ := item]> items_ in
           update_pane (focusIndex m)
             (fun p => set_items (SetItems items_ (items p)) p) m
         else mret m
       else mret m);
  p ← index (topPanes m) (focusIndex m);
  let '(l, cmd) := list_Update (items p) msg in
  m ← update_pane (focusIndex m) (set_items l) m;
  mret (m, cmd).

Definition key_up_down (m : model) (msg : Msg) : M (model * Cmd) :=
  if focusIndex m <? len (topPanes m) then
    p ← index (topPanes m) (focusIndex m);
    let '(l, cmd) := list_Update (items p) msg in
    m ← update_pane (focusIndex m) (set_items l) m;
    mret (m, cmd)
  else if outputPaneFocused m then
    let '(v, cmd) := viewport_Update (outputPane m) msg in
    mret (set_outputPane v m, cmd)
  else update_focused m msg.

Definition key_enter (write : writer) (m : model) (msg : Msg)
    : M (model * Cmd) :=
  if focusIndex m <? len (topPanes m) then
    p ← index (topPanes m) (focusIndex m);
    if negb (isMenu p) then
      let index_ := Index (items p) in
      item ← index (Items (items p)) index_;
      let command := FilterValue item in
      if String.eqb command "Exit" then mret (m, CmdQuit)
      else
        m ← match conn9001 m with
            | Some c =>
                _ ← emit (EWrite c (command +:+ newline));
                match write c (command +:+ newline) with
                | Some err =>
                    _ ← emit EBufRead;
                    let old := viewport_View (outputPane m) in
                    _ ← emit EBufWrite;
                    mret (set_outputPane
                            (SetContent
                               (old +:+ newline +:+ "Error sending command: "
                                    +:+ err)
                               (outputPane m)) m)
                | None => mret m
                end
            | None => mret m
            end;
        update_focused m msg
    else update_focused m msg
  else update_focused m msg.

Definition Update (write : writer) (m : model) (msg : Msg)
    : M (model * Cmd) :=
  match msg with
  | WindowSizeMsg Width Height => update_focused (resize Width Height m) msg
  | KeyMsg key =>
      if String.eqb key "tab" then
        m ← key_tab m; update_focused m msg
      else if String.eqb key " " then key_space m msg
      else if String.eqb key "up" || String.eqb key "down" then
        key_up_down m msg
      else if String.eqb key "enter" then key_enter write m msg
      else if String.eqb key "q" then mret (m, CmdQuit)
      else update_focused m msg
  | OtherMsg _ => update_focused m msg
  end.

(** ** View

    The layout functions of lipgloss are kept symbolic: a frame is the row
    of boxes of the list panes above the box of the output pane. *)

Record box := {
  box_style : border;
  box_width : Z;
  box_height : Z;
  box_text : string
}.

Record frame := { topRow : list box; output : box }.

Definition View (m : model) : M frame :=
  let paneHeight := int_sub (int_div (height m) 2) 2 in
  let topPanes_ :=
    map (fun pane =>
      let style := borderStyle in
      let style := if focused pane then focusedBorderStyle else style in
      {| box_style := style;
         box_width := int_sub (int_div (width m) 4) 2;
         box_height := paneHeight;
         box_text := list_View (items pane) |})
      (topPanes m) in
  _ ← emit EBufRead;
  let text := viewport_View (outputPane m) in
  let output_ :=
    if outputPaneFocused m then
      {| box_style := focusedBorderStyle; box_width := int_sub (width m) 2;
         box_height := int_div (height m) 2; box_text := text |}
    else
      {| box_style := borderStyle; box_width := int_sub (width m) 2;
         box_height := int_div (height m) 2; box_text := text |} in
  mret {| topRow := topPanes_; output := output_ |}.

End Program.

(** ** The running program

    Two threads of control: the event loop, which owns the model it got from
    [initialModel] and replaces it by the result of each [Update]; and the
    goroutine started by [Init], which works on the copy made by [Init].
    Both models hold a slice over the same array of panes, so a write to a
    pane through one is seen through the other. *)

Inductive bg_stage :=
| Connecting          (* connectToServer has not run yet *)
| Listening           (* listenToServer is in its loop *)
| Finished.           (* the goroutine has returned *)

Record world := {
  loop : model;       (* the model of the event loop *)
  copy : model;       (* the receiver of Init, used by the goroutine *)
  stage : bg_stage
}.

Inductive action :=
| Event (write : writer) (msg : Msg)
| Connect (dial : string -> dial_result)
| Recv (r : read_result).

Section Run.
Context `{Components}.

(* p.Run(): Init is called on a copy of the initial model. *)
Definition boot : M world :=
  '(c, _) ← Init initialModel;
  mret {| loop := set_topPanes (topPanes c) initialModel;
          copy := c; stage := Connecting |}.

(* The runtime leaves the loop some time after an Update returned tea.Quit;
   events are not cut off here, which only adds behaviours. *)
Definition step (a : action) (w : world) : M world :=
  match a with
  | Event write msg =>
      '(m, _) ← Update write (loop w) msg;
      mret {| loop := m; copy := set_topPanes (topPanes m) (copy w);
              stage := stage w |}
  | Connect dial =>
      match stage w with
      | Connecting =>
          '(c, started) ← connectToServer dial (copy w);
          mret {| loop := set_topPanes (topPanes c) (loop w); copy := c;
                  stage := if started : bool then Listening else Finished |}
      | _ => mret w
      end
  | Recv r =>
      match stage w with
      | Listening =>
          '(c, again) ← listen_turn r (copy w);
          mret {| loop := set_topPanes (topPanes c) (loop w); copy := c;
                  stage := if again : bool then Listening else Finished |}
      | _ => mret w
      end
  end.

Fixpoint exec (acts : list action) (w : world) : M world :=
  match acts with
  | [] => mret w
  | a :: acts => w ← step a w; exec acts w
  end.

Definition program (acts : list action) : M world :=
  w ← boot; exec acts w.

(* The event loop alone. *)
Fixpoint run (evs : list (writer * Msg)) (m : model) : M model :=
  match evs with
  | [] => mret m
  | (write, msg) :: evs => '(m, _) ← Update write m msg; run evs m
  end.

Definition events_of (acts : list action) : list (writer * Msg) :=
  omap (fun a => match a with
                 | Event write msg => Some (write, msg)
                 | _ => None
                 end) acts.

End Run.

(** ** A simple instance of the components

    Arrows move the index of a list within its bounds; every other message
    leaves a widget as it is.  It is used to run the program on concrete
    inputs. *)

Definition set_index (i : Z) (l : list_Model) : list_Model :=
  {| Title := Title l; list_items := list_items l; list_index := i;
     delegate := delegate l; list_width := list_width l;
     list_height := list_height l |}.

Definition arrows_list_Update (l : list_Model) (msg : Msg)
    : list_Model * Cmd :=
  match msg with
  | KeyMsg key =>
      if String.eqb key "up" then
        (set_index (Z.max 0 (Index l - 1)) l, CmdNil)
      else if String.eqb key "down" then
        (set_index (Z.max 0 (Z.min (len (Items l) - 1) (Index l + 1))) l,
         CmdNil)
      else (l, CmdNil)
  | _ => (l, CmdNil)
  end.

(* The lines of a text, as strings.Split at the newline gives them. *)
Fixpoint split_lines (s : string) : list string :=
  match s with
  | EmptyString => [EmptyString]
  | String a s =>
      if Ascii.eqb a "010" then EmptyString :: split_lines s
      else match split_lines s with
           | l :: ls => String a l :: ls
           | [] => [String a EmptyString]
           end
  end.

(* A line cut, or filled with blanks, to w characters. *)
Fixpoint pad_to (w : nat) (s : string) : string :=
  match w with
  | O => EmptyString
  | S w =>
      match s with
      | EmptyString => String " " (pad_to w EmptyString)
      | String a s => String a (pad_to w s)
      end
  end.

(* The window a viewport shows: Height lines from line YOffset on, each
   Width characters wide, blank where the content has no text. *)
Definition window_View (v : viewport_Model) : string :=
  let h := Z.to_nat (Height v) in
  let visible :=
    take h (drop (Z.to_nat (YOffset v)) (split_lines (content v))) in
  String.concat newline
    (pad_to (Z.to_nat (Width v))
       <$> (visible ++ replicate (h - length visible)%nat EmptyString)).

Definition arrows : Components :=
  {| list_Update := arrows_list_Update;
     viewport_Update := fun v _ => (v, CmdNil);
     list_View := fun l => Render (delegate l) l 0
                             (plain_item EmptyString);
     viewport_View := window_View |}.

(* Outcomes of the network used in the examples. *)
Definition write_ok : writer := fun _ _ => None.
Definition write_fails : writer := fun _ _ => Some "broken pipe".
Definition dial_ok : string -> dial_result := fun a => inl (Conn a).
Definition dial_9001_refused : string -> dial_result :=
  fun a => if String.eqb a port9001 then inr "connection refused"
           else inl (Conn a).

Definition tab := KeyMsg "tab".
Definition enter := KeyMsg "enter".
Definition down := KeyMsg "down".

(* Concrete states of the program, computed with the simple components. *)

Definition after (evs : list Msg) : model :=
  match result (@run arrows (map (fun msg => (write_ok, msg)) evs)
                  initialModel) with
  | Ok m => m
  | Panic _ => initialModel
  end.

(* Focus on the command pane, cursor on "Cmd 2". *)
Definition at_cmd2 : model := Eval vm_compute in after [tab; tab; down].

(* Focus on the command pane, cursor on "Exit". *)
Definition at_exit : model :=
  Eval vm_compute in after [tab; tab; down; down; down].

(* The same states for a model that holds a write connection. *)
Definition connected (m : model) : model :=
  set_conn9001 (Some (Conn port9001)) m.

(* A run in which both connections open and lines arrive while keys are
   pressed. *)
Definition session : list action :=
  [Connect dial_ok; Recv (inl ("hello" +:+ newline));
   Event write_ok tab; Event write_ok tab; Event write_ok down;
   Recv (inl ("world" +:+ newline)); Event write_ok enter;
   Event write_ok (WindowSizeMsg 120 40)].

Definition session_end : world :=
  Eval vm_compute in
    match result (@program arrows session) with
    | Ok w => w
    | Panic _ =>
        {| loop := initialModel; copy := initialModel; stage := Finished |}
    end.

(* The command pane with the focus and its cursor at position i. *)
Definition commands_at (i : Z) : pane :=
  {| pane_title := "Commands";
     items := set_index i
                (SetDelegate {| delegate_focused := true |}
                   (createList "Commands"
                      ["Cmd 1"; "Cmd 2"; "Cmd 3"; "Exit"] 10 false));
     isMenu := false; focused := true |}.

(* The same pane once Init has set the width of its list. *)
Definition SetWidthPane (w : Z) (p : pane) : pane :=
  set_items (SetWidth w (items p)) p.

(* The command-dispatch scenario: connect, receive, tab, tab, down. *)
Definition dispatch : list action :=
  [Connect dial_ok; Recv (inl ("hello" +:+ newline));
   Event write_ok tab; Event write_ok tab; Event write_ok down].

Definition dispatch_end : world :=
  Eval vm_compute in
    match result (@program arrows dispatch) with
    | Ok w => w
    | Panic _ =>
        {| loop := initialModel; copy := initialModel; stage := Finished |}
    end.

(** ** Notions used by the statements *)

(* The focus flags: one per list pane, then the one of the output pane. *)
Definition focus_flags (m : model) : list bool :=
  (focused <$> topPanes m) ++ [outputPaneFocused m].

(* Writes to a connection among the effects. *)
Definition is_write (e : effect) : bool :=
  match e with EWrite _ _ => true | _ => false end.

(* The effects of connectToServer, by the outcome of the two dials. *)
Definition connect_effects (dial : string -> dial_result) : list effect :=
  [EDial port9001]
  ++ match dial port9001 with
     | inr err =>
         [EStderr ("Error connecting to port 9001: " +:+ err +:+ newline)]
     | inl _ => []
     end
  ++ [EDial port9002]
  ++ match dial port9002 with
     | inr err =>
         [EStderr ("Error connecting to port 9002: " +:+ err +:+ newline)]
     | inl _ => [EGo "listenToServer"]
     end.

(* Both models see the same array of panes. *)
Definition aliased (w : world) : Prop := topPanes (copy w) = topPanes (loop w).

(* t is s followed by more text. *)
Definition extends (s t : string) : Prop := exists ext, t = s +:+ ext.

(* What the output pane needs from the viewport widget: handling a message
   (scrolling) does not change the content. *)
Definition keeps_content (C : Components) : Prop :=
  forall v msg, content (fst (viewport_Update v msg)) = content v.

(* What the panes need from the list widget: handling a message changes
   neither the title nor the delegate. *)
Definition keeps_title_and_delegate (C : Components) : Prop :=
  forall l msg,
    Title (fst (list_Update l msg)) = Title l /\
    delegate (fst (list_Update l msg)) = delegate l.

(** The render contract in the spec's words: one row per item, with a
    cursor marker when the pane has the focus and the item is at the cursor,
    a checkbox when the pane is a menu, and the label. *)
Definition spec_row (p : pane) (i : nat) (item : menuItem) : string :=
  let cursor :=
    if focused p && (Z.of_nat i =? Index (items p)) then ">" else " " in
  let checkbox :=
    if isMenu p then (if selected item then "[x]" else "[ ]")
    else EmptyString in
  cursor +:+ " " +:+ checkbox +:+ " " +:+ title item.

Definition spec_rows (p : pane) : list string :=
  imap (spec_row p) (Items (items p)).

(* A pane whose list widget agrees with it: same title, the list titled
   "Commands" is the one that is not a menu, and the delegate carries the
   focus flag of the pane. *)
Definition titled (p : pane) : Prop :=
  Title (items p) = pane_title p /\
  isMenu p = negb (String.eqb (pane_title p) "Commands").

Definition pane_ok (p : pane) : Prop :=
  titled p /\ delegate_focused (delegate (items p)) = focused p.

(** Lock discipline on a trace of effects: every read or replacement of the
    content of the output pane happens between a Lock and the next Unlock. *)
Fixpoint guarded_from (held : bool) (tr : list effect) : bool :=
  match tr with
  | [] => true
  | ELock :: tr => guarded_from true tr
  | EUnlock :: tr => guarded_from false tr
  | EBufRead :: tr => held && guarded_from held tr
  | EBufWrite :: tr => held && guarded_from held tr
  | _ :: tr => guarded_from held tr
  end.

Definition guarded (tr : list effect) : bool := guarded_from false tr.

(* The program after boot, before any message or network event. *)
Definition booted : world :=
  Eval vm_compute in
    match result boot with
    | Ok w => w
    | Panic _ =>
        {| loop := initialModel; copy := initialModel; stage := Finished |}
    end.

(* The flag at position k, and only that one, is set. *)
Definition only (k : nat) (flags : list bool) : Prop :=
  (k < length flags)%nat /\
  forall (i : nat) (b : bool), flags !! i = Some b -> (b = true <-> i = k).

(** What no key but tab changes: the focus, the connections, and the
    title and kind of every pane. *)
Definition pane_shape (p : pane) : string * bool * bool :=
  (pane_title p, isMenu p, focused p).

Definition shape (m : model)
    : Z * list (string * bool * bool) * bool * option conn * option conn :=
  (focusIndex m, pane_shape <$> topPanes m, outputPaneFocused m,
   conn9001 m, conn9002 m).

(** The focus invariant: [focusIndex] designates the one flag that is set. *)
Definition focus_ok (m : model) : Prop :=
  0 <= focusIndex m /\ only (Z.to_nat (focusIndex m)) (focus_flags m).

(* len(m.topPanes) + 1 does not overflow. *)
Definition small (m : model) : Prop := len (topPanes m) < 2 ^ 62.

(* A pane that has the focus, with the item under its cursor. *)
Definition at_cursor (m : model) (p : pane) (item : menuItem) : Prop :=
  0 <= focusIndex m /\
  topPanes m !! Z.to_nat (focusIndex m) = Some p /\
  0 <= Index (items p) /\
  Items (items p) !! Z.to_nat (Index (items p)) = Some item.

(* A computation without effects. *)
Definition silent {A} (c : M A) : Prop := effects c = [].

(* The pane after the selection key: the item under the cursor is toggled
   if the pane is a menu, and the key is then handed to the list. *)
Definition after_space (p : pane) (item : menuItem) : pane :=
  if isMenu p then
    set_items
      (SetItems (<[Z.to_nat (Index (items p)):=toggle item]> (Items (items p)))
         (items p)) p
  else p.

(** ** set.go: a set over a Go map

    [Set[T]] holds a [map[T]struct{}], for any comparable [T].  A Go map
    compares its keys with [==], which is not the identity of values for
    every comparable type: a floating-point NaN is not equal to itself (a
    map never finds it again, and every assignment with it makes a new
    entry), and when [T] is an interface type a key whose dynamic type
    cannot be hashed makes every operation of the map panic, the read and
    the delete on a nil map included.  The key type therefore comes with
    its [==] and with the test that tells which of its values can be
    hashed.

    The map is the list of its keys in the order of their insertion; a map
    holds at most one entry for each class of equal keys, so a delete takes
    out every key equal to the one given.  The map of a zero-value [Set]
    is nil: reading it and deleting from it are allowed, assigning to it
    panics.  The methods have pointer receivers: a receiver is nil or
    points to a set, every method reads the field [data] through it first,
    and the receiver is returned with the set it points to after the
    call. *)

Module Set_.

Class Comparable (T : Type) := {
  eq_go : T -> T -> bool;       (* == on two keys that can be hashed *)
  hashable : T -> bool          (* the key can be hashed *)
}.

(* What Go guarantees of ==: it is symmetric and transitive.  It need not
   be reflexive. *)
Class ComparableLaws (T : Type) `{Comparable T} := {
  eq_go_sym : forall a b : T, eq_go a b = eq_go b a;
  eq_go_trans : forall a b c : T,
    eq_go a b = true -> eq_go b c = true -> eq_go a c = true
}.

Section Set_.
Context {T : Type} `{Comparable T}.

Record t := { data : option (list T) }.

(* A *Set[T]: nil, or the set it points to. *)
Definition ptr : Type := option t.

Definition NewSet : ptr := Some {| data := Some [] |}.

(* The map has an entry whose key is equal to value. *)
Definition member (value : T) (d : list T) : bool :=
  existsb (eq_go value) d.

Definition unhashable {A} : outcome A := Panic "hash of unhashable type".

Definition Add (value : T) (s : ptr) : outcome ptr :=
  match s with
  | None => Panic nil_dereference
  | Some s =>
      match data s with
      | None => Panic "assignment to entry in nil map"
      | Some d =>
          if hashable value then
            Ok (Some {| data := Some (if member value d then d
                                      else d ++ [value]) |})
          else unhashable
      end
  end.

Definition Contains (value : T) (s : ptr) : outcome bool :=
  match s with
  | None => Panic nil_dereference
  | Some s =>
      if hashable value then
        Ok match data s with
           | Some d => member value d
           | None => false
           end
      else unhashable
  end.

Definition Remove (value : T) (s : ptr) : outcome ptr :=
  match s with
  | None => Panic nil_dereference
  | Some s =>
      if hashable value then
        Ok (Some match data s with
                 | Some d =>
                     {| data := Some (List.filter
                                        (fun k => negb (eq_go value k)) d) |}
                 | None => s
                 end)
      else unhashable
  end.

(* A sequence of calls through one receiver. *)
Inductive call := CallAdd (value : T) | CallRemove (value : T).

Definition key_of (c : call) : T :=
  match c with CallAdd value | CallRemove value => value end.

Fixpoint calls (cs : list call) (s : ptr) : outcome ptr :=
  match cs with
  | [] => Ok s
  | c :: cs =>
      match (match c with
             | CallAdd value => Add value s
             | CallRemove value => Remove value s
             end) with
      | Ok s => calls cs s
      | Panic why => Panic why
      end
  end.

Definition has_add (cs : list call) : bool :=
  existsb (fun c => match c with CallAdd _ => true | _ => false end) cs.

(* Whether the last call in [cs] with a key equal to [value] is an Add;
   [before] when there is none. *)
Fixpoint last_added (value : T) (cs : list call) (before : bool) : bool :=
  match cs with
  | [] => before
  | CallAdd v :: cs =>
      last_added value cs (if eq_go v value then true else before)
  | CallRemove v :: cs =>
      last_added value cs (if eq_go v value then false else before)
  end.

End Set_.
Arguments t T : clear implicits.
Arguments ptr T : clear implicits.
Arguments call T : clear implicits.

(* The address of a set with the map given; the zero-value set. *)
Definition of_map {T} (d : option (list T)) : ptr T :=
  Some {| data := d |}.
Definition zero {T} : ptr T := of_map None.
End Set_.

(* Keys of an interface type, as far as the examples need them: integers,
   the floating-point NaN, and a slice, which cannot be hashed. *)
Inductive any := AnyInt (n : Z) | AnyNaN | AnySlice.

#[global] Instance any_Comparable : Set_.Comparable any :=
  {| Set_.eq_go a b :=
       match a, b with
       | AnyInt x, AnyInt y => x =? y
       | _, _ => false
       end;
     Set_.hashable a := match a with AnySlice => false | _ => true end |}.

#[global] Instance Msg_eq_dec : EqDecision Msg.
Proof. solve_decision. Defined.

(* The cursor of a list lies on one of its items. *)
Definition cursor_in (l : list_Model) : Prop :=
  0 <= Index l < len (Items l).

(* Every list pane has its cursor on one of its items. *)
Definition cursors_ok (m : model) : Prop :=
  Forall (fun p => cursor_in (items p)) (topPanes m).

(* A list widget that keeps its cursor on an item when it handles a
   message and does not drop its last item. *)
Definition keeps_cursor (C : Components) : Prop :=
  forall l msg, cursor_in l -> cursor_in (fst (list_Update l msg)).

(* The size announced by the last resize message of a run, [d] if there
   is none. *)
Fixpoint last_size (evs : list (writer * Msg)) (d : Z * Z) : Z * Z :=
  match evs with
  | [] => d
  | (_, WindowSizeMsg w h) :: evs => last_size evs (w, h)
  | _ :: evs => last_size evs d
  end.

(* The first pane of the initial model. *)
Definition pane1 : pane :=
  {| pane_title := "Pane 1";
     items := createList "Pane 1" ["Option A"; "Option B"; "Option C"] 10 true;
     isMenu := true; focused := true |}.

(* A model whose only list pane is a menu without items. *)
Definition empty_menu : model :=
  set_topPanes
    [ {| pane_title := "Empty"; items := createList "Empty" [] 10 true;
         isMenu := true; focused := true |} ] initialModel.

(* The border styles of a frame: the list panes, then the output pane. *)
Definition styles (f : frame) : list border :=
  box_style <$> (topRow f ++ [output f]).

(* The effects of one turn of the reader that received a line. *)
Definition locked_append : list effect :=
  [ELock; EBufRead; EBufWrite; EUnlock].

(* The fields of the model other than the output pane. *)
Definition rest_of (m : model)
    : Z * list pane * bool * option conn * option conn * Z * Z :=
  (focusIndex m, topPanes m, outputPaneFocused m, conn9001 m, conn9002 m,
   width m, height m).

(* The size and the offset of a viewport. *)
Definition geometry (v : viewport_Model) : Z * Z * Z :=
  (Width v, Height v, YOffset v).

(* The lines read before the first error. *)
Fixpoint lines_read (reads : list read_result) : list string :=
  match reads with
  | inl line :: reads => line :: lines_read reads
  | _ => []
  end.

Definition is_error (r : read_result) : bool :=
  match r with inr _ => true | inl _ => false end.

Section Received.
Context `{Components}.

(* The viewport once the lines have arrived one after the other: each
   time the content becomes the text that is shown, followed by the line. *)
Fixpoint after_lines (lines : list string) (v : viewport_Model)
    : viewport_Model :=
  match lines with
  | [] => v
  | line :: lines =>
      after_lines lines
        {| content := viewport_View v +:+ line; Width := Width v;
           Height := Height v; YOffset := YOffset v |}
  end.

(* The content of the output pane after a failed send. *)
Definition send_error_in (v : viewport_Model) (err : string) : string :=
  viewport_View v +:+ newline +:+ "Error sending command: " +:+ err.

(* The model as the reader assigns it when a line has arrived. *)
Definition received (line : string) (m : model) : model :=
  set_outputPane
    (SetContent (viewport_View (outputPane m) +:+ line) (outputPane m)) m.

(* The model as the send-error path of Update assigns it. *)
Definition with_send_error (err : string) (m : model) : model :=
  set_outputPane
    (SetContent
       (viewport_View (outputPane m) +:+ newline +:+ "Error sending command: "
          +:+ err)
       (outputPane m)) m.

End Received.

(* Concrete states of the output pane, computed with the simple
   components. *)

Definition stopped : world :=
  {| loop := initialModel; copy := initialModel; stage := Finished |}.

(* Both connections open and the line "x" has arrived. *)
Definition after_x : world :=
  Eval vm_compute in
    match result (@program arrows
                    [Connect dial_ok; Recv (inl ("x" +:+ newline))]) with
    | Ok w => w
    | Panic _ => stopped
    end.

(* The line "y" has arrived after it. *)
Definition after_xy : world :=
  Eval vm_compute in
    match result (@program arrows
                    [Connect dial_ok; Recv (inl ("x" +:+ newline));
                     Recv (inl ("y" +:+ newline))]) with
    | Ok w => w
    | Panic _ => stopped
    end.

(* The window has been resized to 120 x 40 right after the start. *)
Definition resized : world :=
  Eval vm_compute in
    match result (@program arrows
                    [Event write_ok (WindowSizeMsg 120 40)]) with
    | Ok w => w
    | Panic _ => stopped
    end.

Definition frame_of (m : model) : frame :=
  match result (@View arrows m) with
  | Ok f => f
  | Panic _ => {| topRow := []; output := {| box_style := borderStyle;
                                             box_width := 0; box_height := 0;
                                             box_text := EmptyString |} |}
  end.

Definition frame_booted : frame := Eval vm_compute in frame_of (loop booted).
Definition frame_resized : frame :=
  Eval vm_compute in frame_of (loop resized).

(* The model after the confirm key on "Cmd 2" when the write fails. *)
Definition send_failed : model :=
  Eval vm_compute in
    match result (@Update arrows write_fails (connected at_cmd2) enter) with
    | Ok (m, _) => m
    | Panic _ => initialModel
    end.

(** * Properties *)

(** ** Reasoning about computations *)

Lemma wrap_small z : - 2 ^ 63 <= z < 2 ^ 63 -> wrap z = z.
Proof.
  intros Hz. unfold wrap.
  rewrite Z.mod_small by lia. lia.
Qed.

Lemma result_ret {A} (a : A) : result (mret a) = Ok a.
Proof. reflexivity. Qed.

Lemma bind_ok {A B} (c : M A) (f : A -> M B) (b : B) :
  result (c ≫= f) = Ok b ->
  exists a, result c = Ok a /\ result (f a) = Ok b.
Proof.
  destruct c as [tr [a | why]]; unfold mbind, M_bind, result; simpl.
  - destruct (f a) as [tr' r] eqn:Hf. simpl. intros ->.
    exists a. by rewrite Hf.
  - discriminate.
Qed.

Lemma bind_effects {A B} (c : M A) (f : A -> M B) (a : A) :
  result c = Ok a ->
  effects (c ≫= f) = effects c ++ effects (f a).
Proof.
  destruct c as [tr r]; unfold mbind, M_bind, result, effects; simpl.
  intros ->. by destruct (f a).
Qed.

Lemma bind_panic {A B} (c : M A) (f : A -> M B) why :
  result c = Panic why -> c ≫= f = (effects c, Panic why).
Proof.
  destruct c as [tr r]; unfold mbind, M_bind, result, effects; simpl.
  by intros ->.
Qed.

Lemma bind_result {A B} (c : M A) (f : A -> M B) (a : A) :
  result c = Ok a -> result (c ≫= f) = result (f a).
Proof.
  destruct c as [tr r]; unfold mbind, M_bind, result; simpl.
  intros ->. by destruct (f a).
Qed.

Lemma ret_bind {A B} (a : A) (f : A -> M B) : mret a ≫= f = f a.
Proof. unfold mret, M_ret, mbind, M_bind. by destruct (f a). Qed.

Lemma panic_bind {A B} why (f : A -> M B) : panic why ≫= f = panic why.
Proof. done. Qed.

Lemma bind_effects_incl {A B} (c : M A) (f : A -> M B) e :
  e ∈ effects (c ≫= f) ->
  e ∈ effects c \/ exists a, result c = Ok a /\ e ∈ effects (f a).
Proof.
  destruct c as [tr [a | why]]; unfold mbind, M_bind, result, effects; simpl.
  - destruct (f a) as [tr' r] eqn:Hf. simpl.
    rewrite elem_of_app. intros [He | He]; [by left |].
    right. exists a. by rewrite Hf.
  - by left.
Qed.

Lemma index_ok {A} (s : list A) i a :
  result (index s i) = Ok a ->
  0 <= i < len s /\ s !! Z.to_nat i = Some a.
Proof.
  unfold index.
  destruct (0 <=? i) eqn:H0; destruct (i <? len s) eqn:H1; simpl;
    try discriminate.
  destruct (s !! Z.to_nat i) eqn:Hl; simpl; [| discriminate].
  intros [= ->]. split; [lia | done].
Qed.

Lemma index_in_range {A} (s : list A) i :
  0 <= i < len s -> exists a, s !! Z.to_nat i = Some a /\ index s i = mret a.
Proof.
  intros Hi. unfold index, len in *.
  destruct (lookup_lt_is_Some_2 s (Z.to_nat i)) as [a Ha]; [lia |].
  exists a. split; [done |].
  rewrite Ha.
  replace (0 <=? i) with true by lia.
  replace (i <? Z.of_nat (length s)) with true by lia. done.
Qed.

Lemma index_out_of_range {A} (s : list A) i :
  ~ (0 <= i < len s) -> index s i = panic "index out of range".
Proof.
  intros Hi. unfold index.
  destruct (0 <=? i) eqn:H0; destruct (i <? len s) eqn:H1; simpl; try done.
  lia.
Qed.

Lemma index_effects {A} (s : list A) i : effects (index s i) = [].
Proof.
  unfold index.
  destruct ((0 <=? i) && (i <? len s)); [| done].
  by destruct (s !! Z.to_nat i).
Qed.

Lemma update_pane_ok i f m m' :
  result (update_pane i f m) = Ok m' ->
  0 <= i < len (topPanes m) /\
  m' = set_topPanes (alter f (Z.to_nat i) (topPanes m)) m.
Proof.
  unfold update_pane. intros Hb.
  apply bind_ok in Hb as (p & Hp & Hm).
  apply index_ok in Hp as [Hi _].
  rewrite result_ret in Hm. injection Hm as <-. done.
Qed.

Lemma update_pane_effects i f m : effects (update_pane i f m) = [].
Proof.
  unfold update_pane, index.
  destruct ((0 <=? i) && (i <? len (topPanes m))); [| done].
  by destruct (topPanes m !! Z.to_nat i).
Qed.

(** ** Focus *)

Lemma fmap_alter_same {A B} (f : A -> B) (g : A -> A) (l : list A) i :
  (forall x, f (g x) = f x) -> f <$> alter g i l = f <$> l.
Proof.
  intros Hg. rewrite (list_fmap_alter f g id).
  - by apply list_alter_id.
  - apply Forall_forall. intros x _. apply Hg.
Qed.

Lemma fmap_alter_const {A B} (f : A -> B) (g : A -> A) (l : list A) i b :
  (forall x, f (g x) = b) -> f <$> alter g i l = <[i:=b]> (f <$> l).
Proof.
  intros Hg. rewrite list_insert_alter.
  apply list_fmap_alter, Forall_forall. intros x _. apply Hg.
Qed.

Lemma focus_flags_length m :
  length (focus_flags m) = S (length (topPanes m)).
Proof. unfold focus_flags. rewrite length_app, length_fmap. simpl. lia. Qed.

Lemma focus_flags_set_pane (b : bool) (i : nat) m :
  (i < length (topPanes m))%nat ->
  focus_flags (set_topPanes (alter (set_focused b) i (topPanes m)) m)
  = <[i:=b]> (focus_flags m).
Proof.
  intros Hi. unfold focus_flags. simpl.
  rewrite (fmap_alter_const focused (set_focused b) _ i b) by done.
  rewrite insert_app_l; [done |]. by rewrite length_fmap.
Qed.

Lemma focus_flags_set_output (b : bool) m :
  focus_flags (set_outputPaneFocused b m)
  = <[length (topPanes m):=b]> (focus_flags m).
Proof.
  unfold focus_flags. simpl.
  rewrite insert_app_r_alt by (rewrite length_fmap; lia).
  rewrite length_fmap, Nat.sub_diag. done.
Qed.

Lemma focus_flags_set_items l (i : nat) m :
  focus_flags (set_topPanes (alter (set_items l) i (topPanes m)) m)
  = focus_flags m.
Proof.
  unfold focus_flags. simpl. by rewrite fmap_alter_same.
Qed.

Lemma focus_flags_updatePaneDelegates m :
  focus_flags (updatePaneDelegates m) = focus_flags m.
Proof.
  unfold focus_flags, updatePaneDelegates. simpl.
  rewrite fmap_imap. f_equal.
  rewrite <- (imap_const focused). by apply imap_ext.
Qed.

Lemma only_move (k k' : nat) flags :
  only k flags -> (k' < length flags)%nat ->
  only k' (<[k':=true]> (<[k:=false]> flags)).
Proof.
  intros [Hk Hfl] Hk'. split.
  - by rewrite !length_insert.
  - intros i b.
    destruct (decide (i = k')) as [-> | Hne].
    + rewrite list_lookup_insert_eq by (by rewrite length_insert).
      intros [= <-]. done.
    + rewrite list_lookup_insert_ne by done.
      destruct (decide (i = k)) as [-> | Hne'].
      * rewrite list_lookup_insert_eq by done. intros [= <-]. split; done.
      * rewrite list_lookup_insert_ne by done. intros Hb.
        apply Hfl in Hb. split; [| done].
        intros Hb'. apply Hb in Hb'. done.
Qed.

Lemma only_count (k : nat) flags :
  only k flags -> count_occ Bool.bool_dec flags true = 1%nat.
Proof.
  revert k. induction flags as [| b flags IH]; intros k [Hk Hfl].
  { simpl in Hk. lia. }
  destruct k as [| k].
  - assert (b = true) as -> by (by apply (Hfl 0%nat)).
    rewrite count_occ_cons_eq by done. f_equal.
    apply count_occ_not_In. intros Hin.
    apply list_elem_of_In, list_elem_of_lookup in Hin as [i Hi].
    pose proof (Hfl (S i) true Hi) as [HS _].
    specialize (HS eq_refl). discriminate.
  - assert (b = false) as ->.
    { destruct b; [| done].
      pose proof (Hfl 0%nat true eq_refl) as [H0 _].
      specialize (H0 eq_refl). discriminate. }
    rewrite count_occ_cons_neq by done.
    apply (IH k). split; [simpl in Hk; lia |].
    intros i b Hb. specialize (Hfl (S i) b Hb).
    rewrite Hfl. lia.
Qed.

Ltac inv_M :=
  repeat match goal with
  | H : result (mret _) = Ok _ |- _ =>
      rewrite result_ret in H; injection H as ?; subst
  | H : result (update_pane _ _ _) = Ok _ |- _ =>
      apply update_pane_ok in H as [? ?]; subst
  | H : result (index _ _) = Ok _ |- _ => apply index_ok in H as [? ?]
  | H : result (_ ≫= _) = Ok _ |- _ => apply bind_ok in H as (? & ? & H)
  | H : result (let '(_, _) := ?x in _) = Ok _ |- _ => destruct x eqn:?
  | H : result (if ?b then _ else _) = Ok _ |- _ => destruct b eqn:?
  | H : result (match ?x with _ => _ end) = Ok _ |- _ => destruct x eqn:?
  end.

Section Focus.
Context `{Components}.

Lemma shape_set_items (f : pane -> list_Model) i m :
  shape (set_topPanes (alter (fun p => set_items (f p) p) i (topPanes m)) m)
  = shape m.
Proof.
  unfold shape. simpl. by rewrite fmap_alter_same.
Qed.

Lemma shape_map_items (f : pane -> list_Model) m :
  shape (set_topPanes (map (fun p => set_items (f p) p) (topPanes m)) m)
  = shape m.
Proof.
  unfold shape. simpl. do 4 f_equal.
  change (map ?g ?l) with (g <$> l).
  rewrite <- list_fmap_compose. by apply list_fmap_ext.
Qed.

Lemma shape_focus m m' :
  shape m' = shape m ->
  focusIndex m' = focusIndex m /\ focus_flags m' = focus_flags m /\
  length (topPanes m') = length (topPanes m).
Proof.
  unfold shape, focus_flags. intros [= Hi Hp Ho _ _].
  split; [done |]. split.
  - rewrite Ho. f_equal.
    assert (forall l : list pane,
              focused <$> l = snd <$> (pane_shape <$> l)) as Hs.
    { intros l. rewrite <- list_fmap_compose. by apply list_fmap_ext. }
    by rewrite !Hs, Hp.
  - by rewrite <- (length_fmap pane_shape), Hp, length_fmap.
Qed.

Lemma update_focused_shape m msg m' cmd :
  result (update_focused m msg) = Ok (m', cmd) -> shape m' = shape m.
Proof.
  unfold update_focused. intros Hu. inv_M.
  - apply (shape_set_items (fun _ => l)).
  - done.
Qed.

Lemma resize_shape w h m : shape (resize w h m) = shape m.
Proof.
  unfold resize.
  set (m1 := set_size w h m).
  change (shape m) with (shape m1).
  etransitivity; [| apply (shape_map_items
    (fun p => SetHeight
       (if len (Items (items p)) <? int_sub (int_div (height m1) 2) 2
        then len (Items (items p))
        else int_sub (int_div (height m1) 2) 2) (items p)) m1)].
  done.
Qed.

Lemma key_space_shape m msg m' cmd :
  result (key_space m msg) = Ok (m', cmd) -> shape m' = shape m.
Proof.
  unfold key_space. intros Hu. inv_M.
  all: rewrite (shape_set_items (fun _ => l)); try done.
  apply (shape_set_items (fun p => SetItems _ (items p))).
Qed.

Lemma key_up_down_shape m msg m' cmd :
  result (key_up_down m msg) = Ok (m', cmd) -> shape m' = shape m.
Proof.
  unfold key_up_down. intros Hu.
  destruct (focusIndex m <? len (topPanes m)) eqn:Hlt.
  - inv_M. apply (shape_set_items (fun _ => l)).
  - destruct (outputPaneFocused m); [| by eapply update_focused_shape].
    inv_M. done.
Qed.

Lemma key_enter_shape write m msg m' cmd :
  result (key_enter write m msg) = Ok (m', cmd) -> shape m' = shape m.
Proof.
  unfold key_enter. intros Hu.
  destruct (focusIndex m <? len (topPanes m)) eqn:Hlt;
    [| by eapply update_focused_shape].
  apply bind_ok in Hu as (p & Hp & Hu).
  destruct (negb (isMenu p)); [| by eapply update_focused_shape].
  apply bind_ok in Hu as (item & Hitem & Hu).
  destruct (String.eqb (FilterValue item) "Exit").
  { rewrite result_ret in Hu. by injection Hu as <- _. }
  apply bind_ok in Hu as (m1 & Hm1 & Hu).
  apply update_focused_shape in Hu. rewrite Hu.
  destruct (conn9001 m) as [c |]; [| by inv_M].
  apply bind_ok in Hm1 as ([] & _ & Hm1).
  destruct (write c _); inv_M; done.
Qed.

Lemma focus_ok_range m :
  focus_ok m -> 0 <= focusIndex m <= len (topPanes m).
Proof.
  intros [H0 [Hlt _]]. rewrite focus_flags_length in Hlt.
  unfold len. lia.
Qed.

Lemma focus_ok_shape m m' : shape m' = shape m -> focus_ok m -> focus_ok m'.
Proof.
  intros (Hi & Hf & _)%shape_focus. unfold focus_ok. by rewrite Hi, Hf.
Qed.

Lemma small_shape m m' : shape m' = shape m -> small m -> small m'.
Proof.
  intros (_ & _ & Hl)%shape_focus. unfold small, len. by rewrite Hl.
Qed.

Lemma key_tab_next m :
  small m -> focus_ok m ->
  int_rem (int_add (focusIndex m) 1) (int_add (len (topPanes m)) 1)
  = (focusIndex m + 1) mod (len (topPanes m) + 1).
Proof.
  intros Hs Hf. apply focus_ok_range in Hf.
  unfold small in Hs. unfold int_rem, int_add.
  assert (0 <= len (topPanes m)) by (unfold len; lia).
  rewrite !wrap_small by lia.
  apply Z.rem_mod_nonneg; lia.
Qed.

Lemma key_tab_focus m m' :
  small m -> focus_ok m -> result (key_tab m) = Ok m' ->
  focus_ok m' /\
  focusIndex m' = (focusIndex m + 1) mod (len (topPanes m) + 1) /\
  length (topPanes m') = length (topPanes m) /\
  conn9001 m' = conn9001 m /\ conn9002 m' = conn9002 m /\
  outputPane m' = outputPane m.
Proof.
  intros Hs Hf. pose proof (focus_ok_range m Hf) as Hr.
  unfold key_tab. rewrite (key_tab_next m Hs Hf).
  set (new := (focusIndex m + 1) mod (len (topPanes m) + 1)).
  assert (0 <= new < len (topPanes m) + 1) as Hnew
    by (apply Z.mod_pos_bound; lia).
  set (m0 := set_focusIndex new m).
  intros Hb. apply bind_ok in Hb as (m1 & Hm1 & Hb).
  apply bind_ok in Hb as (m2 & Hm2 & Hb).
  rewrite result_ret in Hb. injection Hb as <-.
  (* the flag of the previous holder is cleared *)
  assert (focus_flags m1 = <[Z.to_nat (focusIndex m):=false]> (focus_flags m)
          /\ focusIndex m1 = new
          /\ length (topPanes m1) = length (topPanes m)
          /\ conn9001 m1 = conn9001 m /\ conn9002 m1 = conn9002 m
          /\ outputPane m1 = outputPane m)
    as (Hfl1 & Hi1 & Hl1 & Hc1 & Hd1 & Ho1).
  { simpl in Hm1.
    destruct (focusIndex m <? len (topPanes m)) eqn:Hlt.
    - apply update_pane_ok in Hm1 as [Hi ->].
      rewrite focus_flags_set_pane by (simpl; unfold len in *; lia).
      simpl. by rewrite length_alter.
    - rewrite result_ret in Hm1. injection Hm1 as <-.
      rewrite focus_flags_set_output. simpl.
      replace (Z.to_nat (focusIndex m)) with (length (topPanes m))
        by (unfold len in *; lia).
      done. }
  (* the flag of the new holder is set *)
  assert (focus_flags m2 = <[Z.to_nat new:=true]> (focus_flags m1)
          /\ focusIndex m2 = new
          /\ length (topPanes m2) = length (topPanes m)
          /\ conn9001 m2 = conn9001 m /\ conn9002 m2 = conn9002 m
          /\ outputPane m2 = outputPane m)
    as (Hfl2 & Hi2 & Hl2 & Hc2 & Hd2 & Ho2).
  { rewrite Hi1 in Hm2. unfold len in Hm2. rewrite Hl1 in Hm2.
    fold (len (topPanes m)) in Hm2.
    destruct (new <? len (topPanes m)) eqn:Hlt.
    - apply update_pane_ok in Hm2 as [Hi ->].
      rewrite focus_flags_set_pane by (unfold len in *; lia).
      simpl. by rewrite length_alter.
    - rewrite result_ret in Hm2. injection Hm2 as <-.
      rewrite focus_flags_set_output. simpl. rewrite Hl1.
      replace (Z.to_nat new) with (length (topPanes m))
        by (unfold len in *; lia).
      done. }
  split.
  - split; [simpl; lia |].
    rewrite focus_flags_updatePaneDelegates. simpl. rewrite Hi2, Hfl2, Hfl1.
    destruct Hf as [_ Hf]. apply only_move; [done |].
    rewrite focus_flags_length. unfold len in *. lia.
  - simpl. rewrite length_imap. done.
Qed.

Lemma Update_focus_ok write m msg m' cmd :
  small m -> focus_ok m -> result (Update write m msg) = Ok (m', cmd) ->
  small m' /\ focus_ok m' /\ length (topPanes m') = length (topPanes m).
Proof.
  intros Hs Hf Hu.
  assert (shape m' = shape m ->
          small m' /\ focus_ok m' /\
          length (topPanes m') = length (topPanes m)) as Hshape.
  { intros Hsh. split; [by eapply small_shape |].
    split; [by eapply focus_ok_shape | by apply shape_focus]. }
  destruct msg as [w h | key | tag]; simpl in Hu.
  - apply Hshape. apply update_focused_shape in Hu.
    by rewrite Hu, resize_shape.
  - destruct (String.eqb key "tab").
    { apply bind_ok in Hu as (m1 & Hm1 & Hu).
      apply key_tab_focus in Hm1 as (Hf1 & _ & Hl1 & _); [| done | done].
      apply update_focused_shape in Hu.
      assert (small m1) by (unfold small, len in *; by rewrite Hl1).
      split; [by eapply small_shape |].
      split; [by eapply focus_ok_shape |].
      apply shape_focus in Hu as (_ & _ & ->). done. }
    destruct (String.eqb key " ").
    { apply Hshape. by eapply key_space_shape. }
    destruct (String.eqb key "up" || String.eqb key "down").
    { apply Hshape. by eapply key_up_down_shape. }
    destruct (String.eqb key "enter").
    { apply Hshape. by eapply key_enter_shape. }
    destruct (String.eqb key "q").
    { rewrite result_ret in Hu. by injection Hu as <- _. }
    apply Hshape. by eapply update_focused_shape.
  - apply Hshape. by eapply update_focused_shape.
Qed.

Lemma initialModel_focus_ok : small initialModel /\ focus_ok initialModel.
Proof.
  split; [done |]. split; [done |]. split; [simpl; lia |].
  intros [| [| [| [| [| i]]]]] b; simpl; intros [= <-]; split; done.
Qed.

Lemma run_focus_ok evs m m' :
  small m -> focus_ok m -> result (run evs m) = Ok m' ->
  small m' /\ focus_ok m' /\ length (topPanes m') = length (topPanes m).
Proof.
  revert m. induction evs as [| [write msg] evs IH]; intros m Hs Hf Hr.
  - simpl in Hr. by injection Hr as <-.
  - simpl in Hr. apply bind_ok in Hr as ([m1 cmd] & Hu & Hr).
    apply Update_focus_ok in Hu as (Hs1 & Hf1 & Hl1); [| done | done].
    rewrite <- Hl1. by apply (IH m1).
Qed.

(** C1.  Focus exclusivity.  Starting from the initial model, after any
    sequence of key and resize messages (and messages of any other type)
    that [Update] has processed, there are still four list panes,
    [focusIndex] lies in 0..4, a focus flag (the four of the list panes
    followed by [outputPaneFocused]) is set if and only if its position is
    [focusIndex], and exactly one flag is set. *)
Theorem C1_focus_exclusivity (evs : list (writer * Msg)) (m : model) :
  result (run evs initialModel) = Ok m ->
  len (topPanes m) = 4 /\
  0 <= focusIndex m <= 4 /\
  (forall (i : nat) (b : bool),
     focus_flags m !! i = Some b -> (b = true <-> Z.of_nat i = focusIndex m)) /\
  count_occ Bool.bool_dec (focus_flags m) true = 1%nat.
Proof.
  intros Hr.
  destruct initialModel_focus_ok as [Hs Hf].
  apply run_focus_ok in Hr as (_ & Hfm & Hl); [| done | done].
  assert (len (topPanes m) = 4) as Hlen by (unfold len; by rewrite Hl).
  split; [done |].
  split; [rewrite <- Hlen; by apply focus_ok_range |].
  destruct Hfm as [H0 Honly]. split.
  - intros i b Hb. destruct Honly as [_ Hfl].
    rewrite (Hfl i b Hb). lia.
  - by eapply only_count.
Qed.

(** ** The selection key *)

Lemma update_focused_total m msg :
  0 <= focusIndex m ->
  exists m' cmd, result (update_focused m msg) = Ok (m', cmd).
Proof.
  intros H0. unfold update_focused, update_pane.
  destruct (focusIndex m <? len (topPanes m)) eqn:Hlt.
  - destruct (index_in_range (topPanes m) (focusIndex m)) as (p & _ & ->);
      [lia |].
    rewrite ret_bind. destruct (list_Update (items p) msg) as [l cmd].
    rewrite !ret_bind. by eexists _, _.
  - destruct (viewport_Update (outputPane m) msg) as [v cmd].
    by eexists _, _.
Qed.

Lemma key_tab_total m :
  small m -> focus_ok m -> exists m', result (key_tab m) = Ok m'.
Proof.
  intros Hs Hf. pose proof (focus_ok_range m Hf) as Hr.
  unfold key_tab. rewrite (key_tab_next m Hs Hf).
  set (new := (focusIndex m + 1) mod (len (topPanes m) + 1)).
  assert (0 <= new < len (topPanes m) + 1) as Hnew
    by (apply Z.mod_pos_bound; lia).
  set (m0 := set_focusIndex new m).
  assert (exists m1, (if focusIndex m <? len (topPanes m0)
                      then update_pane (focusIndex m) (set_focused false) m0
                      else mret (set_outputPaneFocused false m0)) = mret m1
                     /\ focusIndex m1 = new
                     /\ length (topPanes m1) = length (topPanes m))
    as (m1 & -> & Hi1 & Hl1).
  { simpl. destruct (focusIndex m <? len (topPanes m)) eqn:Hlt.
    - unfold update_pane. simpl.
      destruct (index_in_range (topPanes m) (focusIndex m)) as (p & _ & ->);
        [lia |].
      rewrite ret_bind. eexists. split; [done |]. simpl.
      by rewrite length_alter.
    - by eexists. }
  rewrite ret_bind, Hi1.
  assert (exists m2, (if new <? len (topPanes m1)
                      then update_pane new (set_focused true) m1
                      else mret (set_outputPaneFocused true m1)) = mret m2)
    as (m2 & ->).
  { destruct (new <? len (topPanes m1)) eqn:Hlt.
    - unfold update_pane.
      destruct (index_in_range (topPanes m1) new) as (p & _ & ->); [lia |].
      rewrite ret_bind. by eexists.
    - by eexists. }
  rewrite ret_bind. by eexists.
Qed.

Lemma Update_tab write m :
  small m -> focus_ok m ->
  exists m' cmd,
    result (Update write m (KeyMsg "tab")) = Ok (m', cmd) /\
    small m' /\ focus_ok m' /\
    length (topPanes m') = length (topPanes m) /\
    focusIndex m' = (focusIndex m + 1) mod (len (topPanes m) + 1).
Proof.
  intros Hs Hf.
  destruct (key_tab_total m Hs Hf) as [m1 Hm1].
  pose proof (key_tab_focus m m1 Hs Hf Hm1) as (Hf1 & Hi1 & Hl1 & _).
  destruct (update_focused_total m1 (KeyMsg "tab")) as (m' & cmd & Hu);
    [by destruct Hf1 |].
  assert (result (Update write m (KeyMsg "tab")) = Ok (m', cmd)) as HU.
  { simpl. by rewrite (bind_result _ _ m1 Hm1). }
  exists m', cmd. split; [done |].
  apply Update_focus_ok in HU as (? & ? & ?); [| done | done].
  do 3 (split; [done |]).
  apply update_focused_shape, shape_focus in Hu as (-> & _). done.
Qed.

Lemma Update_space_output write m :
  focusIndex m = len (topPanes m) ->
  Update write m (KeyMsg " ") = panic "index out of range".
Proof.
  intros Hi. simpl. unfold key_space.
  replace (focusIndex m <? len (topPanes m)) with false by lia.
  rewrite ret_bind, index_out_of_range by lia. done.
Qed.

Lemma alter_lookup_insert {A} (f : A -> A) (l : list A) i x :
  l !! i = Some x -> alter f i l = <[i:=f x]> l.
Proof.
  intros Hl. rewrite list_insert_alter.
  apply list_alter_ext; [| done].
  intros y Hy. rewrite Hl in Hy. by injection Hy as <-.
Qed.

(* On a list pane the selection key replaces the focused pane only: its
   item under the cursor has [selected] flipped when the pane is a menu,
   and no item changes when it is not. *)
Lemma Update_space_on_list_pane write m p item :
  0 <= focusIndex m ->
  topPanes m !! Z.to_nat (focusIndex m) = Some p ->
  0 <= Index (items p) ->
  Items (items p) !! Z.to_nat (Index (items p)) = Some item ->
  Update write m (KeyMsg " ")
  = let p1 := after_space p item in
    let '(l, cmd) := list_Update (items p1) (KeyMsg " ") in
    mret (set_topPanes
            (<[Z.to_nat (focusIndex m):=set_items l p1]> (topPanes m)) m,
          cmd).
Proof.
  intros H0 Hp Hi0 Hitem.
  pose proof (lookup_lt_Some _ _ _ Hp) as Hlt.
  assert (forall (ps : list pane) q,
            ps !! Z.to_nat (focusIndex m) = Some q ->
            index ps (focusIndex m) = mret q) as Hidx.
  { intros ps q Hq. unfold index. rewrite Hq.
    apply lookup_lt_Some in Hq. unfold len.
    replace (0 <=? focusIndex m) with true by lia.
    replace (focusIndex m <? Z.of_nat (length ps)) with true by lia.
    done. }
  simpl. unfold key_space, after_space, update_pane.
  replace (focusIndex m <? len (topPanes m)) with true
    by (unfold len; lia).
  rewrite (Hidx _ _ Hp), ret_bind.
  destruct (isMenu p) eqn:Hmenu.
  - assert (index (Items (items p)) (Index (items p)) = mret item) as ->.
    { unfold index. rewrite Hitem.
      apply lookup_lt_Some in Hitem. unfold len.
      replace (0 <=? Index (items p)) with true by lia.
      replace (Index (items p) <? Z.of_nat (length (Items (items p))))
        with true by lia.
      done. }
    rewrite !ret_bind. cbn [topPanes focusIndex set_topPanes]. cbv zeta.
    rewrite (alter_lookup_insert _ _ _ p) by done.
    remember (set_items
                (SetItems
                   (<[Z.to_nat (Index (items p)):=toggle item]>
                      (Items (items p))) (items p)) p) as p1 eqn:Hp1def.
    assert (<[Z.to_nat (focusIndex m):=p1]> (topPanes m)
              !! Z.to_nat (focusIndex m) = Some p1) as Hp1
      by (by apply list_lookup_insert_eq).
    rewrite (Hidx _ _ Hp1), ret_bind.
    destruct (list_Update (items p1) (KeyMsg " ")) as [l cmd].
    rewrite !ret_bind. cbn [topPanes focusIndex set_topPanes].
    rewrite (alter_lookup_insert _ _ _ p1) by done.
    by rewrite list_insert_insert_eq.
  - rewrite ret_bind. cbv beta. rewrite (Hidx _ _ Hp), ret_bind.
    destruct (list_Update (items p) (KeyMsg " ")) as [l cmd].
    rewrite !ret_bind.
    by rewrite (alter_lookup_insert _ _ _ p).
Qed.

(** C5.  Four presses of tab move the focus from the first pane to the
    output pane.  Pressing the selection key there makes [Update] index
    [topPanes] at [len(topPanes)]: the program panics, whatever the widgets
    do with the keys they are handed. *)
Theorem C5_space_on_output_pane_panics (write : writer) :
  result (run [(write, KeyMsg "tab"); (write, KeyMsg "tab");
               (write, KeyMsg "tab"); (write, KeyMsg "tab");
               (write, KeyMsg " ")] initialModel)
  = Panic "index out of range".
Proof.
  destruct initialModel_focus_ok as [Hs0 Hf0].
  destruct (Update_tab write _ Hs0 Hf0)
    as (m1 & c1 & Hu1 & Hs1 & Hf1 & Hl1 & Hi1).
  destruct (Update_tab write _ Hs1 Hf1)
    as (m2 & c2 & Hu2 & Hs2 & Hf2 & Hl2 & Hi2).
  destruct (Update_tab write _ Hs2 Hf2)
    as (m3 & c3 & Hu3 & Hs3 & Hf3 & Hl3 & Hi3).
  destruct (Update_tab write _ Hs3 Hf3)
    as (m4 & c4 & Hu4 & Hs4 & Hf4 & Hl4 & Hi4).
  assert (focusIndex m4 = len (topPanes m4)) as Hout.
  { unfold len in *. rewrite Hl4, Hl3, Hl2, Hl1 in *.
    rewrite Hi4, Hi3, Hi2, Hi1. done. }
  cbn [run].
  rewrite (bind_result _ _ _ Hu1). cbn beta iota.
  rewrite (bind_result _ _ _ Hu2). cbn beta iota.
  rewrite (bind_result _ _ _ Hu3). cbn beta iota.
  rewrite (bind_result _ _ _ Hu4). cbn beta iota.
  by rewrite Update_space_output.
Qed.

End Focus.

(** ** The confirm key *)

Lemma alter_lookup_id {A} (f : A -> A) (l : list A) i x :
  l !! i = Some x -> f x = x -> alter f i l = l.
Proof.
  intros Hl Hf. rewrite <- (list_alter_id id l i) at 2 by done.
  apply list_alter_ext; [| done].
  intros y Hy. rewrite Hl in Hy. by injection Hy as <-.
Qed.

Lemma set_items_same p : set_items (items p) p = p.
Proof. by destruct p. Qed.

Lemma set_topPanes_same m : set_topPanes (topPanes m) m = m.
Proof. by destruct m. Qed.

Lemma lookup_index {A} (s : list A) (i : Z) a :
  0 <= i -> s !! Z.to_nat i = Some a -> index s i = mret a.
Proof.
  intros H0 Hs. unfold index. rewrite Hs.
  apply lookup_lt_Some in Hs. unfold len.
  replace (0 <=? i) with true by lia.
  replace (i <? Z.of_nat (length s)) with true by lia. done.
Qed.

Section Confirm.
Context `{Components}.

(* Forwarding a message that the focused list ignores changes nothing. *)
Lemma update_focused_ignored m p msg cmd :
  0 <= focusIndex m ->
  topPanes m !! Z.to_nat (focusIndex m) = Some p ->
  list_Update (items p) msg = (items p, cmd) ->
  update_focused m msg = mret (m, cmd).
Proof.
  intros H0 Hp Hl. unfold update_focused, update_pane.
  pose proof (lookup_lt_Some _ _ _ Hp) as Hlt.
  replace (focusIndex m <? len (topPanes m)) with true
    by (unfold len; lia).
  rewrite (lookup_index _ _ p) by done.
  rewrite ret_bind, Hl, ret_bind, ret_bind.
  rewrite (alter_lookup_id _ _ _ p) by (done || apply set_items_same).
  by rewrite set_topPanes_same.
Qed.

(** C6.  With the focus on a pane that is not a menu and its cursor on an
    item labelled "Exit", the confirm key makes [Update] return the command
    [tea.Quit] with the model unchanged, and performs no effect: nothing is
    written to a connection. *)
Theorem C6_exit (write : writer) (m : model) (p : pane) (item : menuItem) :
  at_cursor m p item ->
  isMenu p = false ->
  title item = "Exit" ->
  Update write m (KeyMsg "enter") = ([], Ok (m, CmdQuit)).
Proof.
  intros (H0 & Hp & Hi0 & Hitem) Hmenu Htitle.
  pose proof (lookup_lt_Some _ _ _ Hp) as Hlt.
  simpl. unfold key_enter.
  replace (focusIndex m <? len (topPanes m)) with true
    by (unfold len; lia).
  rewrite (lookup_index _ _ p) by done.
  rewrite ret_bind, Hmenu. simpl.
  rewrite (lookup_index _ _ item) by done.
  rewrite ret_bind. unfold FilterValue. rewrite Htitle. done.
Qed.

(** The confirm key with a write connection.  With the focus on a pane
    that is not a menu, its cursor on an item whose label is not "Exit", and
    a write connection, the confirm key writes the label and a newline.
    When the write fails, [Update] returns normally; the content of the
    output pane becomes the text that its [View] returns followed by a
    newline and "Error sending command: " with the error, and everything
    else is as before the key: the size and the offset of the output pane,
    the focus index, the panes with their flags, cursors and items, the
    connections and the size of the window.  When the write succeeds the
    content is as before too.  The list widget is assumed to ignore the
    confirm key. *)
Lemma Update_enter_with_connection (write : writer) (m : model) (p : pane)
    (item : menuItem) (c : conn) (cmd : Cmd) :
  at_cursor m p item ->
  isMenu p = false ->
  title item <> "Exit" ->
  conn9001 m = Some c ->
  list_Update (items p) (KeyMsg "enter") = (items p, cmd) ->
  exists m',
    Update write m (KeyMsg "enter")
    = (EWrite c (title item +:+ newline)
         :: match write c (title item +:+ newline) with
            | Some _ => [EBufRead; EBufWrite]
            | None => []
            end,
       Ok (m', cmd)) /\
    content (outputPane m')
    = match write c (title item +:+ newline) with
      | Some err =>
          viewport_View (outputPane m) +:+ newline
            +:+ "Error sending command: " +:+ err
      | None => content (outputPane m)
      end /\
    geometry (outputPane m') = geometry (outputPane m) /\
    rest_of m' = rest_of m.
Proof.
  intros (H0 & Hp & Hi0 & Hitem) Hmenu Htitle Hconn Hlist.
  pose proof (lookup_lt_Some _ _ _ Hp) as Hlt.
  simpl. unfold key_enter.
  replace (focusIndex m <? len (topPanes m)) with true
    by (unfold len; lia).
  rewrite (lookup_index _ _ p) by done.
  rewrite ret_bind, Hmenu. simpl.
  rewrite (lookup_index _ _ item) by done.
  rewrite ret_bind. unfold FilterValue.
  destruct (String.eqb_spec (title item) "Exit") as [| _]; [done |].
  rewrite Hconn.
  destruct (write c (title item +:+ newline)) as [err |].
  - exists (with_send_error err m). split; [| done].
    pose proof (update_focused_ignored (with_send_error err m) p
                  (KeyMsg "enter") cmd H0 Hp Hlist) as Hu.
    unfold mbind, M_bind, emit. simpl. fold (with_send_error err m).
    by rewrite Hu.
  - exists m. split; [| done].
    unfold mbind, M_bind, emit. simpl.
    by rewrite (update_focused_ignored m p _ cmd).
Qed.

End Confirm.

(** ** Effects of Update, and what it leaves alone *)

Lemma effects_bind {A B} (c : M A) (f : A -> M B) :
  effects (c ≫= f)
  = effects c ++ match result c with
                 | Ok a => effects (f a)
                 | Panic _ => []
                 end.
Proof.
  destruct c as [tr [a | why]]; unfold mbind, M_bind, result, effects; simpl.
  - by destruct (f a).
  - by rewrite app_nil_r.
Qed.

Lemma silent_bind {A B} (c : M A) (f : A -> M B) :
  silent c -> (forall a, silent (f a)) -> silent (c ≫= f).
Proof.
  unfold silent. intros Hc Hf. rewrite effects_bind, Hc.
  destruct (result c); [apply Hf | done].
Qed.

Lemma silent_index {A} (s : list A) i : silent (index s i).
Proof. apply index_effects. Qed.

Lemma silent_update_pane i f m : silent (update_pane i f m).
Proof. apply update_pane_effects. Qed.

Ltac silent :=
  repeat first
    [ done
    | apply silent_index
    | apply silent_update_pane
    | apply silent_bind; [| intros ?]
    | match goal with
      | |- silent (if ?b then _ else _) => destruct b
      | |- silent (let '(_, _) := ?x in _) => destruct x
      | |- silent (match ?x with _ => _ end) => destruct x
      end ].

Section Frame.
Context `{Components}.

Lemma update_focused_silent m msg : silent (update_focused m msg).
Proof. unfold update_focused. silent. Qed.

Lemma key_tab_silent m : silent (key_tab m).
Proof. unfold key_tab. silent. Qed.

Lemma key_space_silent m msg : silent (key_space m msg).
Proof. unfold key_space. silent. Qed.

Lemma key_up_down_silent m msg : silent (key_up_down m msg).
Proof.
  unfold key_up_down. silent. apply update_focused_silent.
Qed.

Lemma key_enter_silent write m msg :
  conn9001 m = None -> silent (key_enter write m msg).
Proof.
  intros Hc. unfold key_enter. rewrite Hc.
  silent; apply update_focused_silent.
Qed.

(* Without a write connection Update performs no effect at all. *)
Lemma Update_silent write m msg :
  conn9001 m = None -> silent (Update write m msg).
Proof.
  intros Hc. destruct msg as [w h | key | tag]; simpl.
  - apply update_focused_silent.
  - destruct (String.eqb key "tab").
    { apply silent_bind; [apply key_tab_silent |].
      intros ?. apply update_focused_silent. }
    destruct (String.eqb key " "); [apply key_space_silent |].
    destruct (String.eqb key "up" || String.eqb key "down");
      [apply key_up_down_silent |].
    destruct (String.eqb key "enter"); [by apply key_enter_silent |].
    destruct (String.eqb key "q"); [done |].
    apply update_focused_silent.
  - apply update_focused_silent.
Qed.

Lemma key_tab_conns m m' :
  result (key_tab m) = Ok m' ->
  conn9001 m' = conn9001 m /\ conn9002 m' = conn9002 m /\
  outputPane m' = outputPane m.
Proof.
  unfold key_tab. intros Hk. inv_M; done.
Qed.

Lemma shape_conns m m' :
  shape m' = shape m ->
  conn9001 m' = conn9001 m /\ conn9002 m' = conn9002 m.
Proof. by intros [= _ _ _ -> ->]. Qed.

(* Update never assigns the connections. *)
Lemma Update_conns write m msg m' cmd :
  result (Update write m msg) = Ok (m', cmd) ->
  conn9001 m' = conn9001 m /\ conn9002 m' = conn9002 m.
Proof.
  intros Hu.
  destruct msg as [w h | key | tag]; simpl in Hu.
  - apply shape_conns. apply update_focused_shape in Hu.
    by rewrite Hu, resize_shape.
  - destruct (String.eqb key "tab").
    { apply bind_ok in Hu as (m1 & Hm1 & Hu).
      apply key_tab_conns in Hm1 as (<- & <- & _).
      apply shape_conns. by eapply update_focused_shape. }
    destruct (String.eqb key " ").
    { apply shape_conns. by eapply key_space_shape. }
    destruct (String.eqb key "up" || String.eqb key "down").
    { apply shape_conns. by eapply key_up_down_shape. }
    destruct (String.eqb key "enter").
    { apply shape_conns. by eapply key_enter_shape. }
    destruct (String.eqb key "q").
    { rewrite result_ret in Hu. by injection Hu as <- _. }
    apply shape_conns. by eapply update_focused_shape.
  - apply shape_conns. by eapply update_focused_shape.
Qed.

End Frame.

(** ** The event loop and the goroutine *)

Lemma connectToServer_eq dial m :
  connectToServer dial m
  = (connect_effects dial,
     Ok (set_conn9002 (dialled (dial port9002))
           (set_conn9001 (dialled (dial port9001)) m),
         match dial port9002 with inl _ => true | inr _ => false end)).
Proof.
  unfold connectToServer, connect_effects.
  by destruct (dial port9001), (dial port9002).
Qed.

Lemma listen_turn_eq `{Components} r m :
  listen_turn r m
  = match r with
    | inl message =>
        ([ELock; EBufRead; EBufWrite; EUnlock],
         Ok (set_outputPane
               (SetContent (viewport_View (outputPane m) +:+ message)
                  (outputPane m)) m, true))
    | inr err =>
        ([EStderr ("Error reading from port 9002: " +:+ err +:+ newline)],
         Ok (m, false))
    end.
Proof. by destruct r. Qed.

Lemma connect_effects_no_write dial :
  Forall (fun e => is_write e = false) (connect_effects dial).
Proof.
  unfold connect_effects.
  destruct (dial port9001), (dial port9002); repeat constructor.
Qed.

Section World.
Context `{Components}.

Lemma boot_eq :
  exists w0,
    boot = ([EGo "connectToServer"], Ok w0) /\ aliased w0 /\
    conn9001 (loop w0) = None /\ conn9002 (loop w0) = None.
Proof. eexists. repeat split. Qed.

(* A step of the goroutine leaves the model of the event loop as it is; a
   step of the event loop is an Update of that model. *)
Lemma step_loop a w w' :
  aliased w -> result (step a w) = Ok w' ->
  aliased w' /\
  match a with
  | Event write msg =>
      exists cmd, result (Update write (loop w) msg) = Ok (loop w', cmd)
  | _ => loop w' = loop w
  end.
Proof.
  unfold aliased. intros Ha Hs. destruct a as [write msg | dial | r].
  - simpl in Hs. apply bind_ok in Hs as ([m cmd] & Hu & Hs).
    rewrite result_ret in Hs. injection Hs as <-. simpl.
    split; [done | by exists cmd].
  - simpl in Hs. destruct (stage w).
    2, 3: rewrite result_ret in Hs; by injection Hs as <-.
    rewrite connectToServer_eq in Hs. simpl in Hs. injection Hs as <-.
    simpl. rewrite Ha. by rewrite set_topPanes_same.
  - simpl in Hs. destruct (stage w).
    1, 3: rewrite result_ret in Hs; by injection Hs as <-.
    rewrite listen_turn_eq in Hs.
    destruct r as [message | err]; simpl in Hs; injection Hs as <-;
      simpl; rewrite Ha; by rewrite set_topPanes_same.
Qed.

Lemma exec_loop acts w w' :
  aliased w -> result (exec acts w) = Ok w' ->
  aliased w' /\ result (run (events_of acts) (loop w)) = Ok (loop w').
Proof.
  revert w. induction acts as [| a acts IH]; intros w Ha He.
  - simpl in He. by injection He as <-.
  - simpl in He. apply bind_ok in He as (w1 & Hs & He).
    apply step_loop in Hs as [Ha1 Hs]; [| done].
    destruct (IH w1 Ha1 He) as [Ha' Hr]. split; [done |].
    destruct a as [write msg | dial | r]; simpl.
    + destruct Hs as [cmd Hu].
      by rewrite (bind_result _ _ _ Hu).
    + by rewrite <- Hs.
    + by rewrite <- Hs.
Qed.

Lemma run_conns evs m m' :
  result (run evs m) = Ok m' ->
  conn9001 m' = conn9001 m /\ conn9002 m' = conn9002 m.
Proof.
  revert m. induction evs as [| [write msg] evs IH]; intros m Hr.
  - simpl in Hr. by injection Hr as <-.
  - simpl in Hr. apply bind_ok in Hr as ([m1 cmd] & Hu & Hr).
    apply Update_conns in Hu as [<- <-]. by apply IH.
Qed.

Lemma step_no_write a w :
  conn9001 (loop w) = None ->
  Forall (fun e => is_write e = false) (effects (step a w)).
Proof.
  intros Hc. destruct a as [write msg | dial | r]; simpl.
  - rewrite effects_bind, (Update_silent write _ msg Hc). simpl.
    destruct (result (Update write (loop w) msg)) as [[m cmd] |]; done.
  - destruct (stage w); try done.
    rewrite connectToServer_eq. simpl. rewrite app_nil_r.
    apply connect_effects_no_write.
  - destruct (stage w); try done.
    rewrite listen_turn_eq. destruct r; repeat constructor.
Qed.

Lemma exec_no_write acts w :
  aliased w -> conn9001 (loop w) = None ->
  Forall (fun e => is_write e = false) (effects (exec acts w)).
Proof.
  revert w. induction acts as [| a acts IH]; intros w Ha Hc; [done |].
  simpl. rewrite effects_bind. apply Forall_app. split.
  - by apply step_no_write.
  - destruct (result (step a w)) as [w1 |] eqn:Hs; [| done].
    apply step_loop in Hs as [Ha1 Hs]; [| done].
    apply IH; [done |].
    destruct a as [write msg | dial | r].
    + destruct Hs as [cmd Hu]. apply Update_conns in Hu as [-> _]. done.
    + by rewrite Hs.
    + by rewrite Hs.
Qed.

(** C10.  [Init] works on a copy of the model and the goroutine keeps that
    copy.  In every state the program reaches, by any interleaving of
    messages handled by [Update], the connection attempt and lines or
    errors read by the goroutine: the model of the event loop has no
    connection ([conn9001] and [conn9002] are nil); it is the model that the
    messages alone produce from the booted model, so what the goroutine
    connected to or read has no part in it, nor in the frame [View] makes
    of it; and no effect of the whole run is a write to a connection. *)
Theorem C10_event_loop_model_is_never_connected (acts : list action)
    (w : world) :
  result (program acts) = Ok w ->
  conn9001 (loop w) = None /\ conn9002 (loop w) = None /\
  (exists w0, result boot = Ok w0 /\
              result (run (events_of acts) (loop w0)) = Ok (loop w)) /\
  (forall acts' w',
     events_of acts' = events_of acts ->
     result (program acts') = Ok w' -> View (loop w') = View (loop w)) /\
  Forall (fun e => is_write e = false) (effects (program acts)).
Proof.
  intros Hp. destruct boot_eq as (w0 & Hb & Ha0 & Hc1 & Hc2).
  assert (forall acts1 w1,
            result (program acts1) = Ok w1 ->
            result (run (events_of acts1) (loop w0)) = Ok (loop w1))
    as Hloop.
  { intros acts1 w1 Hp1. unfold program in Hp1. rewrite Hb in Hp1.
    rewrite (bind_result _ _ w0) in Hp1 by done.
    by apply exec_loop in Hp1 as [_ Hr]. }
  pose proof (Hloop acts w Hp) as Hr.
  destruct (run_conns _ _ _ Hr) as [Hd1 Hd2].
  split; [congruence |]. split; [congruence |].
  split; [exists w0; by rewrite Hb |].
  split.
  - intros acts' w' Hev Hp'. apply Hloop in Hp'.
    rewrite Hev, Hr in Hp'. by injection Hp' as ->.
  - unfold program. rewrite Hb, effects_bind. simpl.
    constructor; [done |]. by apply exec_no_write.
Qed.

End World.

(** ** Concrete runs *)

Lemma C1_focus_exclusivity_witness :
  result (@run arrows [(write_ok, tab); (write_ok, tab); (write_ok, down)]
            initialModel) = Ok at_cmd2 /\
  len (topPanes at_cmd2) = 4 /\
  0 <= focusIndex at_cmd2 <= 4 /\
  (forall (i : nat) (b : bool),
     focus_flags at_cmd2 !! i = Some b ->
     (b = true <-> Z.of_nat i = focusIndex at_cmd2)) /\
  count_occ Bool.bool_dec (focus_flags at_cmd2) true = 1%nat.
Proof.
  split; [reflexivity |].
  apply (@C1_focus_exclusivity arrows
           [(write_ok, tab); (write_ok, tab); (write_ok, down)] at_cmd2).
  reflexivity.
Defined.

Lemma C6_exit_witness :
  at_cursor at_exit (commands_at 3)
    (plain_item "Exit") /\
  @Update arrows write_ok at_exit (KeyMsg "enter")
  = ([], Ok (at_exit, CmdQuit)).
Proof.
  assert (at_cursor at_exit (commands_at 3)
            (plain_item "Exit")) as Hat.
  { unfold at_cursor. simpl. repeat split; (lia || reflexivity). }
  split; [exact Hat |].
  apply (@C6_exit arrows write_ok at_exit _ _ Hat); reflexivity.
Defined.


(* The general statement at the same input. *)
Lemma Update_enter_with_connection_at_cmd2 :
  exists m',
    @Update arrows write_fails (connected at_cmd2) (KeyMsg "enter")
    = ([EWrite (Conn port9001) ("Cmd 2" +:+ newline); EBufRead; EBufWrite],
       Ok (m', CmdNil)) /\
    content (outputPane m')
    = window_View (outputPane (connected at_cmd2)) +:+ newline
        +:+ "Error sending command: " +:+ "broken pipe" /\
    geometry (outputPane m') = geometry (outputPane (connected at_cmd2)) /\
    rest_of m' = rest_of (connected at_cmd2).
Proof.
  assert (at_cursor (connected at_cmd2) (commands_at 1)
            (plain_item "Cmd 2")) as Hat.
  { unfold at_cursor. simpl. repeat split; (lia || reflexivity). }
  apply (@Update_enter_with_connection arrows write_fails
           (connected at_cmd2) _ _ (Conn port9001) CmdNil Hat);
    (reflexivity || discriminate).
Qed.

Lemma C10_event_loop_model_is_never_connected_witness :
  result (@program arrows session) = Ok session_end /\
  conn9001 (copy session_end) = Some (Conn port9001) /\
  conn9001 (loop session_end) = None /\
  conn9002 (loop session_end) = None.
Proof.
  assert (result (@program arrows session) = Ok session_end) as Hp
    by reflexivity.
  split; [exact Hp |]. split; [reflexivity |].
  destruct (@C10_event_loop_model_is_never_connected arrows session
              session_end Hp) as (Hc1 & Hc2 & _).
  split; [exact Hc1 | exact Hc2].
Defined.

(** C2.  The command-dispatch scenario on the running program: both
    connections open, the goroutine receives a line, and the keys tab, tab,
    down put the focus on the command pane with its cursor on "Cmd 2".  The
    connection is held by the copy of the model that [Init] made; the model
    of the event loop has none, and the confirm key performs no effect:
    "Cmd 2" is not written. *)
Theorem C2_confirm_writes_nothing :
  result (@program arrows dispatch) = Ok dispatch_end /\
  conn9001 (copy dispatch_end) = Some (Conn port9001) /\
  conn9001 (loop dispatch_end) = None /\
  at_cursor (loop dispatch_end) (SetWidthPane 18 (commands_at 1))
    (plain_item "Cmd 2") /\
  @Update arrows write_ok (loop dispatch_end) (KeyMsg "enter")
  = ([], Ok (loop dispatch_end, CmdNil)).
Proof.
  split; [vm_compute; reflexivity |].
  split; [reflexivity |]. split; [reflexivity |].
  split; [| vm_compute; reflexivity].
  unfold at_cursor. simpl. repeat split; (lia || reflexivity).
Qed.

(** ** Connecting, and sending without a connection *)

Section Degraded.
Context `{Components}.

Lemma update_focused_outputPane m msg m' cmd :
  focusIndex m < len (topPanes m) ->
  result (update_focused m msg) = Ok (m', cmd) ->
  outputPane m' = outputPane m.
Proof.
  intros Hlt. unfold update_focused.
  replace (focusIndex m <? len (topPanes m)) with true by lia.
  intros Hu. inv_M. done.
Qed.

Lemma key_enter_outputPane write m msg m' cmd :
  conn9001 m = None ->
  focusIndex m < len (topPanes m) ->
  result (key_enter write m msg) = Ok (m', cmd) ->
  outputPane m' = outputPane m.
Proof.
  intros Hc Hlt. unfold key_enter. rewrite Hc.
  replace (focusIndex m <? len (topPanes m)) with true by lia.
  intros Hu. apply bind_ok in Hu as (p & _ & Hu).
  destruct (negb (isMenu p)); [| by eapply update_focused_outputPane].
  apply bind_ok in Hu as (item & _ & Hu).
  destruct (String.eqb (FilterValue item) "Exit").
  { rewrite result_ret in Hu. by injection Hu as <- _. }
  rewrite ret_bind in Hu. by eapply update_focused_outputPane.
Qed.

(** C4, amended.  [connectToServer] dials port 9001 and then port 9002,
    whatever the first dial returned; a failed dial is reported on stderr
    and leaves the connection nil; the reader is started exactly when the
    second dial succeeded.  When the first dial failed, the confirm key on
    the resulting model is silent: it performs no effect, and with the
    focus on a list pane the output pane is left as it was (no error is
    shown). *)
Theorem C4_connect_order_and_silent_send (dial : string -> dial_result)
    (write : writer) (m : model) :
  exists m1 started,
    connectToServer dial m = (connect_effects dial, Ok (m1, started)) /\
    conn9001 m1 = dialled (dial port9001) /\
    conn9002 m1 = dialled (dial port9002) /\
    (started = true <-> exists c, dial port9002 = inl c) /\
    ((exists err, dial port9001 = inr err) ->
     effects (Update write m1 (KeyMsg "enter")) = [] /\
     forall m2 cmd,
       focusIndex m1 < len (topPanes m1) ->
       result (Update write m1 (KeyMsg "enter")) = Ok (m2, cmd) ->
       outputPane m2 = outputPane m1).
Proof.
  eexists _, _. split; [apply connectToServer_eq |].
  split; [done |]. split; [done |]. split.
  { destruct (dial port9002) as [c | err]; simpl.
    - split; [by exists c | done].
    - split; [done | by intros [c Hc]]. }
  intros [err Herr].
  assert (conn9001 (set_conn9002 (dialled (dial port9002))
                      (set_conn9001 (dialled (dial port9001)) m)) = None)
    as Hc by (simpl; by rewrite Herr).
  split.
  - by apply Update_silent.
  - intros m2 cmd Hlt Hu. simpl in Hu. by eapply key_enter_outputPane.
Qed.

End Degraded.

Lemma C4_connect_order_and_silent_send_witness :
  (exists err, dial_9001_refused port9001 = inr err) /\
  effects (@Update arrows write_ok
             (set_conn9002 (Some (Conn port9002)) at_cmd2) (KeyMsg "enter"))
  = [].
Proof.
  assert (exists err, dial_9001_refused port9001 = inr err) as Hr
    by (eexists; reflexivity).
  split; [exact Hr |].
  destruct (@C4_connect_order_and_silent_send arrows dial_9001_refused
              write_ok at_cmd2) as (m1 & started & Heq & _ & _ & _ & Hsend).
  injection Heq as <- _.
  exact (proj1 (Hsend Hr)).
Defined.

(** C4, as stated, fails: when the dial of port 9001 is refused,
    [connectToServer] still dials port 9002 (and starts the reader); and
    the confirm key on "Cmd 2" then adds nothing to the output pane. *)
Lemma C4_read_attempted_after_write_failure :
  dial_9001_refused port9001 = inr "connection refused" /\
  effects (connectToServer dial_9001_refused at_cmd2)
  = [EDial port9001;
     EStderr ("Error connecting to port 9001: connection refused"
                +:+ newline);
     EDial port9002; EGo "listenToServer"] /\
  @Update arrows write_ok
    (set_conn9002 (Some (Conn port9002)) at_cmd2) (KeyMsg "enter")
  = ([], Ok (set_conn9002 (Some (Conn port9002)) at_cmd2, CmdNil)).
Proof. repeat split. Qed.

(** ** How the content of the output pane changes *)

Lemma extends_prefix s t : extends s t -> String.prefix s t = true.
Proof.
  intros [ext ->]. induction s as [| a s IH]; [by destruct ext |].
  change (String.prefix (String a s) (String a (s +:+ ext)) = true).
  cbn [String.prefix]. by destruct (ascii_dec a a).
Qed.

Section Output.
Context `{C : Components}.
Hypothesis Hcontent : keeps_content C.

Lemma update_focused_content m msg m' cmd :
  result (update_focused m msg) = Ok (m', cmd) ->
  content (outputPane m') = content (outputPane m).
Proof.
  unfold update_focused. intros Hu. inv_M; [done |].
  simpl. match goal with
         | Hv : viewport_Update _ _ = _ |- _ =>
             pose proof (Hcontent (outputPane m) msg) as Hk;
             rewrite Hv in Hk
         end.
  done.
Qed.

Lemma key_space_content m msg m' cmd :
  result (key_space m msg) = Ok (m', cmd) ->
  content (outputPane m') = content (outputPane m).
Proof. unfold key_space. intros Hu. inv_M; done. Qed.

Lemma key_up_down_content m msg m' cmd :
  result (key_up_down m msg) = Ok (m', cmd) ->
  content (outputPane m') = content (outputPane m).
Proof.
  unfold key_up_down. intros Hu.
  destruct (focusIndex m <? len (topPanes m)); [by inv_M |].
  destruct (outputPaneFocused m); [| by eapply update_focused_content].
  destruct (viewport_Update (outputPane m) msg) as [v c] eqn:Hv.
  rewrite result_ret in Hu. injection Hu as <- _. simpl.
  pose proof (Hcontent (outputPane m) msg) as Hk. by rewrite Hv in Hk.
Qed.

Lemma key_enter_content write m msg m' cmd :
  result (key_enter write m msg) = Ok (m', cmd) ->
  content (outputPane m') = content (outputPane m) \/
  exists c data err,
    conn9001 m = Some c /\ write c data = Some err /\
    content (outputPane m') = send_error_in (outputPane m) err.
Proof.
  unfold key_enter. intros Hu.
  destruct (focusIndex m <? len (topPanes m));
    [| left; by eapply update_focused_content].
  apply bind_ok in Hu as (p & _ & Hu).
  destruct (negb (isMenu p));
    [| left; by eapply update_focused_content].
  apply bind_ok in Hu as (item & _ & Hu).
  destruct (String.eqb (FilterValue item) "Exit").
  { rewrite result_ret in Hu. injection Hu as <- _. by left. }
  apply bind_ok in Hu as (m1 & Hm1 & Hu).
  apply update_focused_content in Hu. rewrite Hu.
  destruct (conn9001 m) as [c |]; [| inv_M; by left].
  apply bind_ok in Hm1 as ([] & _ & Hm1).
  destruct (write c _) as [err |] eqn:Hw; inv_M; [| by left].
  right. by exists c, (FilterValue item +:+ newline), err.
Qed.

Lemma Update_content write m msg m' cmd :
  result (Update write m msg) = Ok (m', cmd) ->
  content (outputPane m') = content (outputPane m) \/
  msg = KeyMsg "enter" /\
  exists c data err,
    conn9001 m = Some c /\ write c data = Some err /\
    content (outputPane m') = send_error_in (outputPane m) err.
Proof.
  intros Hu.
  destruct msg as [w h | key | tag]; simpl in Hu.
  - left. by apply update_focused_content in Hu.
  - destruct (String.eqb key "tab").
    { apply bind_ok in Hu as (m1 & Hm1 & Hu).
      apply key_tab_conns in Hm1 as (_ & _ & <-).
      left. by eapply update_focused_content. }
    destruct (String.eqb key " ").
    { left. by eapply key_space_content. }
    destruct (String.eqb key "up" || String.eqb key "down").
    { left. by eapply key_up_down_content. }
    destruct (String.eqb_spec key "enter") as [-> |].
    { apply key_enter_content in Hu as [Hu | Hu]; [by left | by right]. }
    destruct (String.eqb key "q").
    { rewrite result_ret in Hu. injection Hu as <- _. by left. }
    left. by eapply update_focused_content.
  - left. by eapply update_focused_content.
Qed.

Lemma View_eq m :
  exists f, View m = ([EBufRead], Ok f) /\
            box_text (output f) = viewport_View (outputPane m).
Proof.
  unfold View. eexists. split; [reflexivity |].
  simpl. by destruct (outputPaneFocused m).
Qed.


End Output.

(** ** Rendering of a list pane *)

Lemma Render_spec_rows p index item :
  pane_ok p ->
  Render (delegate (items p)) (items p) index item
  = String.concat EmptyString ((fun row => row +:+ newline) <$> spec_rows p).
Proof.
  intros ((Ht & Hm) & Hd). unfold Render, spec_rows.
  rewrite fmap_imap. f_equal. apply imap_ext. intros i it _. simpl.
  f_equal. unfold render_row, spec_row.
  rewrite Ht, Hm, Hd, andb_comm.
  by destruct (String.eqb (pane_title p) "Commands"), (selected it).
Qed.

Section Panes.
Context `{C : Components}.
Hypothesis Hlist : keeps_title_and_delegate C.

Lemma pane_ok_list_Update p msg :
  pane_ok p -> pane_ok (set_items (fst (list_Update (items p) msg)) p).
Proof.
  intros ((Ht & Hm) & Hd). destruct (Hlist (items p) msg) as [Ht' Hd'].
  unfold pane_ok, titled. simpl. by rewrite Ht', Hd'.
Qed.

Lemma panes_ok_forward m (i : nat) p l cmd msg :
  Forall pane_ok (topPanes m) ->
  topPanes m !! i = Some p ->
  list_Update (items p) msg = (l, cmd) ->
  Forall pane_ok (alter (set_items l) i (topPanes m)).
Proof.
  intros Hok Hp Hl. apply Forall_alter; [done |].
  intros x Hx Hpx. rewrite Hp in Hx. injection Hx as <-.
  pose proof (pane_ok_list_Update p msg Hpx) as Hn. by rewrite Hl in Hn.
Qed.

Lemma update_focused_panes_ok m msg m' cmd :
  Forall pane_ok (topPanes m) ->
  result (update_focused m msg) = Ok (m', cmd) ->
  Forall pane_ok (topPanes m').
Proof.
  intros Hok. unfold update_focused. intros Hu. inv_M; [| done].
  simpl. by eapply panes_ok_forward.
Qed.

Lemma resize_panes_ok w h m :
  Forall pane_ok (topPanes m) -> Forall pane_ok (topPanes (resize w h m)).
Proof.
  intros Hok. unfold resize. simpl.
  change (map ?g ?l) with (g <$> l).
  apply Forall_fmap. eapply Forall_impl; [exact Hok |].
  by intros p Hp.
Qed.

Lemma key_space_panes_ok m msg m' cmd :
  Forall pane_ok (topPanes m) ->
  result (key_space m msg) = Ok (m', cmd) ->
  Forall pane_ok (topPanes m').
Proof.
  intros Hok. unfold key_space. intros Hu.
  apply bind_ok in Hu as (m1 & Hm1 & Hu).
  assert (Forall pane_ok (topPanes m1)) as Hok1.
  { clear Hu. inv_M; try done. simpl. apply Forall_alter; [done |].
    by intros p Hp Hpok. }
  clear Hm1. inv_M. simpl. by eapply panes_ok_forward.
Qed.

Lemma key_up_down_panes_ok m msg m' cmd :
  Forall pane_ok (topPanes m) ->
  result (key_up_down m msg) = Ok (m', cmd) ->
  Forall pane_ok (topPanes m').
Proof.
  intros Hok. unfold key_up_down. intros Hu.
  destruct (focusIndex m <? len (topPanes m)).
  { inv_M. simpl. by eapply panes_ok_forward. }
  destruct (outputPaneFocused m); [by inv_M |].
  by eapply update_focused_panes_ok.
Qed.

Lemma key_enter_panes_ok write m msg m' cmd :
  Forall pane_ok (topPanes m) ->
  result (key_enter write m msg) = Ok (m', cmd) ->
  Forall pane_ok (topPanes m').
Proof.
  intros Hok. unfold key_enter. intros Hu.
  destruct (focusIndex m <? len (topPanes m));
    [| by eapply update_focused_panes_ok].
  apply bind_ok in Hu as (p & _ & Hu).
  destruct (negb (isMenu p)); [| by eapply update_focused_panes_ok].
  apply bind_ok in Hu as (item & _ & Hu).
  destruct (String.eqb (FilterValue item) "Exit").
  { rewrite result_ret in Hu. by injection Hu as <- _. }
  apply bind_ok in Hu as (m1 & Hm1 & Hu).
  eapply update_focused_panes_ok; [| exact Hu].
  destruct (conn9001 m) as [c |]; [| by inv_M].
  apply bind_ok in Hm1 as ([] & _ & Hm1).
  destruct (write c _); by inv_M.
Qed.

Lemma key_tab_inv m m' :
  result (key_tab m) = Ok m' ->
  exists m2,
    m' = updatePaneDelegates m2 /\
    (Forall titled (topPanes m) -> Forall titled (topPanes m2)).
Proof.
  unfold key_tab. intros Hk. inv_M; eexists; (split; [reflexivity |]);
    simpl; intros Ht; repeat (apply Forall_alter; [| by intros p _ Hp]);
    done.
Qed.

Lemma key_tab_panes_ok m m' :
  small m -> focus_ok m ->
  Forall pane_ok (topPanes m) ->
  result (key_tab m) = Ok m' ->
  Forall pane_ok (topPanes m').
Proof.
  intros Hs Hf Hok Hk.
  destruct (key_tab_focus m m' Hs Hf Hk) as ([H0 [_ Hfl]] & _).
  destruct (key_tab_inv m m' Hk) as (m2 & -> & Ht).
  assert (Forall titled (topPanes m2)) as Ht2.
  { apply Ht. eapply Forall_impl; [exact Hok |]. by intros p [Hp _]. }
  apply Forall_lookup_2. intros i p Hp.
  pose proof Hp as Hp'. simpl in Hp'.
  apply list_lookup_imap_Some in Hp' as (p2 & Hp2 & ->).
  split.
  - by apply (Forall_lookup_1 _ _ _ _ Ht2 Hp2).
  - simpl.
    assert (focus_flags (updatePaneDelegates m2) !! i = Some (focused p2))
      as Hflag.
    { rewrite focus_flags_updatePaneDelegates. unfold focus_flags.
      apply lookup_app_l_Some. by rewrite list_lookup_fmap, Hp2. }
    apply Hfl in Hflag. simpl in Hflag, H0.
    destruct (focused p2), (Z.of_nat i =? focusIndex m2) eqn:Hi;
      try done.
    + destruct Hflag as [Hflag _]. specialize (Hflag eq_refl). lia.
    + destruct Hflag as [_ Hflag]. by rewrite Hflag by lia.
Qed.

Lemma Update_panes_ok write m msg m' cmd :
  small m -> focus_ok m ->
  Forall pane_ok (topPanes m) ->
  result (Update write m msg) = Ok (m', cmd) ->
  Forall pane_ok (topPanes m').
Proof.
  intros Hs Hf Hok Hu.
  destruct msg as [w h | key | tag]; simpl in Hu.
  - eapply update_focused_panes_ok; [| exact Hu]. by apply resize_panes_ok.
  - destruct (String.eqb key "tab").
    { apply bind_ok in Hu as (m1 & Hm1 & Hu).
      eapply update_focused_panes_ok; [| exact Hu].
      by eapply key_tab_panes_ok. }
    destruct (String.eqb key " "); [by eapply key_space_panes_ok |].
    destruct (String.eqb key "up" || String.eqb key "down");
      [by eapply key_up_down_panes_ok |].
    destruct (String.eqb key "enter"); [by eapply key_enter_panes_ok |].
    destruct (String.eqb key "q").
    { rewrite result_ret in Hu. by injection Hu as <- _. }
    by eapply update_focused_panes_ok.
  - by eapply update_focused_panes_ok.
Qed.

Lemma initialModel_panes_ok : Forall pane_ok (topPanes initialModel).
Proof. repeat constructor. Qed.

Lemma run_panes_ok evs m m' :
  small m -> focus_ok m ->
  Forall pane_ok (topPanes m) ->
  result (run evs m) = Ok m' ->
  Forall pane_ok (topPanes m').
Proof.
  revert m. induction evs as [| [write msg] evs IH]; intros m Hs Hf Hok Hr.
  - simpl in Hr. by injection Hr as <-.
  - simpl in Hr. apply bind_ok in Hr as ([m1 cmd] & Hu & Hr).
    pose proof (Update_panes_ok _ _ _ _ _ Hs Hf Hok Hu) as Hok1.
    apply Update_focus_ok in Hu as (Hs1 & Hf1 & _); [| done | done].
    by apply (IH m1).
Qed.

(** C8.  List render contract.  For every pane [p] of every model that
    the event loop reaches from the initial model, a call of
    [customDelegate.Render] on the list of [p] with its delegate writes
    exactly the rows of the contract, each followed by a newline: one row
    per item; the row starts with ">" if [p] has the focus and the item is
    at the cursor, and with a blank otherwise; the checkbox "[x]" or "[ ]"
    is there if [p] is a menu and absent if it is not.  The list widget is
    assumed to leave its title and its delegate alone when it handles a
    message. *)
Theorem C8_list_render_contract (evs : list (writer * Msg)) (m : model)
    (p : pane) (index : Z) (item : menuItem) :
  result (run evs initialModel) = Ok m ->
  p ∈ topPanes m ->
  Render (delegate (items p)) (items p) index item
  = String.concat EmptyString ((fun row => row +:+ newline) <$> spec_rows p)
  /\ length (spec_rows p) = length (Items (items p)).
Proof.
  intros Hr Hp. destruct initialModel_focus_ok as [Hs Hf].
  pose proof (run_panes_ok _ _ _ Hs Hf initialModel_panes_ok Hr) as Hok.
  split.
  - apply Render_spec_rows.
    by apply (proj1 (Forall_forall _ _) Hok).
  - unfold spec_rows. apply length_imap.
Qed.

End Panes.

(** ** The mutex *)

(** C9.  The reader goroutine and [addToOutputPane] read and replace the
    content of the output pane between Lock and Unlock.  A render pass
    ([View], on any model) reads it without taking the mutex, and so does
    the confirm key when the write fails: it reads and replaces the content
    with the mutex not held. *)
Theorem C9_output_pane_accessed_without_lock `{Components} (m : model)
    (message txt : string) :
  guarded (effects (listen_turn (inl message) m)) = true /\
  guarded (effects (addToOutputPane txt m)) = true /\
  guarded (effects (View m)) = false /\
  effects (@Update arrows write_fails (connected at_cmd2) (KeyMsg "enter"))
  = [EWrite (Conn port9001) ("Cmd 2" +:+ newline); EBufRead; EBufWrite] /\
  guarded
    (effects (@Update arrows write_fails (connected at_cmd2)
                (KeyMsg "enter"))) = false.
Proof. repeat split. Qed.

(** ** The simple components satisfy what is assumed of the widgets *)

Lemma arrows_keeps_content : keeps_content arrows.
Proof. by intros v msg. Qed.

Lemma arrows_keeps_title_and_delegate : keeps_title_and_delegate arrows.
Proof.
  intros l msg. simpl. unfold arrows_list_Update.
  destruct msg as [w h | key | tag]; try done.
  destruct (String.eqb key "up"); [done |].
  by destruct (String.eqb key "down").
Qed.



Lemma C8_list_render_contract_witness :
  keeps_title_and_delegate arrows /\
  result (@run arrows [(write_ok, tab); (write_ok, tab); (write_ok, down)]
            initialModel) = Ok at_cmd2 /\
  commands_at 1 ∈ topPanes at_cmd2 /\
  Render {| delegate_focused := true |} (items (commands_at 1)) 0
    (plain_item "Cmd 1")
  = String.concat EmptyString
      ((fun row => row +:+ newline) <$>
         ["   Cmd 1"; ">  Cmd 2"; "   Cmd 3"; "   Exit"]).
Proof.
  assert (commands_at 1 ∈ topPanes at_cmd2) as Hin.
  { do 2 apply list_elem_of_further. apply list_elem_of_here. }
  split; [exact arrows_keeps_title_and_delegate |].
  split; [reflexivity |]. split; [exact Hin |].
  apply (@C8_list_render_contract arrows arrows_keeps_title_and_delegate
           [(write_ok, tab); (write_ok, tab); (write_ok, down)] at_cmd2
           (commands_at 1) 0 (plain_item "Cmd 1")).
  - reflexivity.
  - exact Hin.
Defined.

(** * Further properties of the code *)

(** ** set.go *)

Section SetProperties.
Context {T : Type} `{Set_.ComparableLaws T}.

Lemma member_Add (v value : T) (d : list T) :
  Set_.member value (if Set_.member v d then d else d ++ [v])
  = if Set_.eq_go v value then true else Set_.member value d.
Proof.
  unfold Set_.member.
  destruct (existsb (Set_.eq_go v) d) eqn:Hv.
  - destruct (Set_.eq_go v value) eqn:Hvv; [| done].
    apply existsb_exists in Hv as (k & Hk & Hvk).
    apply existsb_exists. exists k. split; [done |].
    apply (Set_.eq_go_trans value v k); [| done].
    by rewrite Set_.eq_go_sym.
  - rewrite existsb_app. cbn [existsb].
    rewrite (Set_.eq_go_sym value v).
    destruct (Set_.eq_go v value); [| by rewrite !orb_false_r].
    by rewrite orb_true_r.
Qed.

Lemma member_Remove (v value : T) (d : list T) :
  Set_.member value (List.filter (fun k => negb (Set_.eq_go v k)) d)
  = if Set_.eq_go v value then false else Set_.member value d.
Proof.
  unfold Set_.member. induction d as [| k d IH].
  - by destruct (Set_.eq_go v value).
  - cbn [List.filter existsb].
    destruct (Set_.eq_go v k) eqn:Hvk; cbn [negb existsb]; rewrite IH.
    + destruct (Set_.eq_go v value) eqn:Hvv; [done |].
      destruct (Set_.eq_go value k) eqn:Hk; [| done].
      rewrite Set_.eq_go_sym in Hk.
      by rewrite (Set_.eq_go_trans v k value Hvk Hk) in Hvv.
    + destruct (Set_.eq_go v value) eqn:Hvv; [| done].
      destruct (Set_.eq_go value k) eqn:Hk; [| done].
      by rewrite (Set_.eq_go_trans v value k Hvv Hk) in Hvk.
Qed.

Lemma Set_calls_made (cs : list (Set_.call T)) (d : list T) :
  Forall (fun c => Set_.hashable (Set_.key_of c) = true) cs ->
  exists d', Set_.calls cs (Set_.of_map (Some d))
             = Ok (Set_.of_map (Some d')) /\
             forall value,
               Set_.member value d'
               = Set_.last_added value cs (Set_.member value d).
Proof.
  revert d. induction cs as [| [v | v] cs IH]; intros d Hh.
  - by exists d.
  - apply Forall_cons in Hh as [Hv Hh]. cbn [Set_.key_of] in Hv.
    destruct (IH (if Set_.member v d then d else d ++ [v]) Hh)
      as (d' & Hc & Hl).
    exists d'. split.
    + cbn [Set_.calls]. unfold Set_.of_map at 1, Set_.Add.
      cbn [Set_.data]. by rewrite Hv.
    + intros value. rewrite Hl. cbn [Set_.last_added]. f_equal.
      apply member_Add.
  - apply Forall_cons in Hh as [Hv Hh]. cbn [Set_.key_of] in Hv.
    destruct (IH (List.filter (fun k => negb (Set_.eq_go v k)) d) Hh)
      as (d' & Hc & Hl).
    exists d'. split.
    + cbn [Set_.calls]. unfold Set_.of_map at 1, Set_.Remove.
      cbn [Set_.data]. by rewrite Hv.
    + intros value. rewrite Hl. cbn [Set_.last_added]. f_equal.
      apply member_Remove.
Qed.

(** X1.  A sequence of Add and Remove calls on a set made by NewSet, with
    keys that can be hashed, returns normally, and afterwards Contains(v)
    is true exactly when the last call with a key equal to v (by ==) was an
    Add.  A key that is not equal to itself, such as NaN, is therefore
    never contained, whatever was added. *)
Theorem X1_set_membership_after_calls (cs : list (Set_.call T))
    (value : T) :
  Forall (fun c => Set_.hashable (Set_.key_of c) = true) cs ->
  Set_.hashable value = true ->
  exists s, Set_.calls cs Set_.NewSet = Ok s /\
            Set_.Contains value s = Ok (Set_.last_added value cs false) /\
            (Set_.eq_go value value = false ->
             Set_.Contains value s = Ok false).
Proof.
  intros Hh Hv.
  destruct (Set_calls_made cs [] Hh) as (d' & Hc & Hl).
  exists (Set_.of_map (Some d')). split; [done |].
  unfold Set_.Contains, Set_.of_map. rewrite Hv. cbn [Set_.data]. split.
  - f_equal. apply Hl.
  - intros Hirr. f_equal. unfold Set_.member.
    destruct (existsb (Set_.eq_go value) d') eqn:He; [| done].
    apply existsb_exists in He as (k & _ & Hk).
    pose proof Hk as Hk'. rewrite Set_.eq_go_sym in Hk'.
    by rewrite (Set_.eq_go_trans value k value Hk Hk') in Hirr.
Qed.

(** X2.  On a zero-value set (nil map), with keys that can be hashed,
    Contains answers false and Remove does nothing, but Add panics: a
    sequence of calls panics at its first Add, and returns the set still
    zero-valued if it has none.  With a key that cannot be hashed every
    method panics on every set, the zero-value set included; Add on the
    zero-value set panics for the nil map first.  Through a nil receiver
    every method panics, whatever the key. *)
Theorem X2_set_zero_value (cs : list (Set_.call T)) (value : T)
    (d : option (list T)) :
  Forall (fun c => Set_.hashable (Set_.key_of c) = true) cs ->
  Set_.calls cs Set_.zero
  = (if Set_.has_add cs then Panic "assignment to entry in nil map"
     else Ok Set_.zero) /\
  Set_.Contains value Set_.zero
  = (if Set_.hashable value then Ok false
     else Panic "hash of unhashable type") /\
  Set_.Add value Set_.zero = Panic "assignment to entry in nil map" /\
  (Set_.hashable value = false ->
   Set_.Contains value (Set_.of_map d) = Panic "hash of unhashable type" /\
   Set_.Remove value (Set_.of_map d) = Panic "hash of unhashable type" /\
   Set_.Add value (Set_.of_map d)
   = Panic match d with
           | None => "assignment to entry in nil map"
           | Some _ => "hash of unhashable type"
           end) /\
  Set_.Contains value None = Panic nil_dereference /\
  Set_.Remove value None = Panic nil_dereference /\
  Set_.Add value None = Panic nil_dereference.
Proof.
  intros Hh. split; [| split; [| split; [| split]]].
  - induction Hh as [| [v | v] cs Hv Hh IH]; [done | done |].
    cbn [Set_.key_of] in Hv.
    cbn [Set_.calls Set_.has_add existsb orb].
    unfold Set_.zero, Set_.of_map, Set_.Remove.
    rewrite Hv. cbn [Set_.data]. exact IH.
  - unfold Set_.Contains, Set_.zero, Set_.of_map.
    by destruct (Set_.hashable value).
  - done.
  - intros Hv. unfold Set_.Contains, Set_.Remove, Set_.Add, Set_.of_map.
    cbn [Set_.data]. rewrite Hv. by destruct d.
  - done.
Qed.

(** X3.  Take a key that the set does not contain, and add it.  If the key
    is equal to itself, removing it gives back a set that does not contain
    it, with the entries it had, and adding it once more changes nothing.
    If the key is not equal to itself (NaN), it is in the map for good:
    Contains still answers false, Remove leaves the set as it is, and a
    further Add makes one more entry.  Removing a key that is not there
    changes nothing. *)
Theorem X3_set_add_remove_round_trip (value : T) (s s1 : Set_.ptr T) :
  Set_.Contains value s = Ok false ->
  Set_.Add value s = Ok s1 ->
  Set_.Remove value s = Ok s /\
  if Set_.eq_go value value then
    Set_.Contains value s1 = Ok true /\
    Set_.Remove value s1 = Ok s /\
    Set_.Add value s1 = Ok s1
  else
    Set_.Contains value s1 = Ok false /\
    Set_.Remove value s1 = Ok s1 /\
    exists d, s1 = Set_.of_map (Some d) /\
              Set_.Add value s1 = Ok (Set_.of_map (Some (d ++ [value]))).
Proof.
  destruct s as [[[d |]] |]; unfold Set_.Contains, Set_.Add, Set_.Remove;
    cbn [Set_.data]; [| discriminate | discriminate].
  destruct (Set_.hashable value); [| discriminate].
  intros [= Hm]. rewrite Hm. intros [= <-]. cbn [Set_.data].
  assert (List.filter (fun k => negb (Set_.eq_go value k)) d = d) as Hf.
  { unfold Set_.member in Hm. clear -Hm.
    induction d as [| k d IH]; [done |].
    cbn [existsb] in Hm. apply orb_false_iff in Hm as [Hk Hm].
    cbn [List.filter]. rewrite Hk. cbn [negb]. by rewrite IH. }
  split; [by rewrite Hf |].
  assert (Set_.member value (d ++ [value])
          = Set_.eq_go value value) as Hm1.
  { unfold Set_.member in *. rewrite existsb_app, Hm. cbn [existsb orb].
    by rewrite orb_false_r. }
  assert (List.filter (fun k => negb (Set_.eq_go value k)) (d ++ [value])
          = d ++ if Set_.eq_go value value then [] else [value]) as Hf1.
  { rewrite List.filter_app, Hf. cbn [List.filter].
    by destruct (Set_.eq_go value value). }
  rewrite Hm1, Hf1.
  destruct (Set_.eq_go value value).
  - by rewrite app_nil_r.
  - repeat split. by exists (d ++ [value]).
Qed.

End SetProperties.

Lemma any_ComparableLaws : Set_.ComparableLaws any.
Proof.
  split.
  - intros [x | |] [y | |]; try done. apply Z.eqb_sym.
  - intros [x | |] [y | |] [z | |]; try done. simpl.
    intros ->%Z.eqb_eq. done.
Qed.

Lemma X1_set_membership_after_calls_witness :
  exists s,
    Set_.calls [Set_.CallAdd (AnyInt 1); Set_.CallAdd AnyNaN;
                Set_.CallAdd (AnyInt 2); Set_.CallRemove (AnyInt 1)]
      Set_.NewSet = Ok s /\
    Set_.Contains (AnyInt 2) s = Ok true /\
    (Set_.eq_go (AnyInt 2) (AnyInt 2) = false ->
     Set_.Contains (AnyInt 2) s = Ok false).
Proof.
  apply (@X1_set_membership_after_calls any _ any_ComparableLaws
           [Set_.CallAdd (AnyInt 1); Set_.CallAdd AnyNaN;
            Set_.CallAdd (AnyInt 2); Set_.CallRemove (AnyInt 1)]
           (AnyInt 2)).
  - repeat constructor.
  - reflexivity.
Defined.

Lemma X2_set_zero_value_witness :
  Set_.calls [Set_.CallRemove (AnyInt 1); Set_.CallAdd AnyNaN;
              Set_.CallRemove AnyNaN] Set_.zero
  = Panic "assignment to entry in nil map" /\
  Set_.Contains AnySlice Set_.zero = Panic "hash of unhashable type" /\
  Set_.Add AnySlice Set_.zero = Panic "assignment to entry in nil map" /\
  (Set_.hashable AnySlice = false ->
   Set_.Contains AnySlice Set_.NewSet = Panic "hash of unhashable type" /\
   Set_.Remove AnySlice Set_.NewSet = Panic "hash of unhashable type" /\
   Set_.Add AnySlice Set_.NewSet = Panic "hash of unhashable type") /\
  Set_.Contains AnySlice None = Panic nil_dereference /\
  Set_.Remove AnySlice None = Panic nil_dereference /\
  Set_.Add AnySlice None = Panic nil_dereference.
Proof.
  assert (Forall (fun c => Set_.hashable (Set_.key_of c) = true)
            [Set_.CallRemove (AnyInt 1); Set_.CallAdd AnyNaN;
             Set_.CallRemove AnyNaN]) as Hh by repeat constructor.
  exact (@X2_set_zero_value any _
           [Set_.CallRemove (AnyInt 1); Set_.CallAdd AnyNaN;
            Set_.CallRemove AnyNaN] AnySlice (Some []) Hh).
Defined.

Lemma X3_set_add_remove_round_trip_witness :
  Set_.Contains AnyNaN Set_.NewSet = Ok false /\
  Set_.Add AnyNaN Set_.NewSet = Ok (Set_.of_map (Some [AnyNaN])) /\
  Set_.Contains AnyNaN (Set_.of_map (Some [AnyNaN])) = Ok false /\
  Set_.Remove AnyNaN (Set_.of_map (Some [AnyNaN]))
  = Ok (Set_.of_map (Some [AnyNaN])).
Proof.
  assert (Set_.Contains AnyNaN Set_.NewSet = Ok false) as H1
    by reflexivity.
  assert (Set_.Add AnyNaN Set_.NewSet = Ok (Set_.of_map (Some [AnyNaN])))
    as H2 by reflexivity.
  split; [exact H1 |]. split; [exact H2 |].
  pose proof (@X3_set_add_remove_round_trip any _ AnyNaN Set_.NewSet
                (Set_.of_map (Some [AnyNaN])) H1 H2) as [_ Hx].
  change (Set_.eq_go AnyNaN AnyNaN) with false in Hx.
  destruct Hx as (Hc & Hr & _).
  split; [exact Hc | exact Hr].
Defined.

(** ** Update: the focus *)

Lemma only_unique (k : nat) (l1 l2 : list bool) :
  only k l1 -> only k l2 -> length l1 = length l2 -> l1 = l2.
Proof.
  intros [_ H1] [_ H2] Hlen. apply list_eq. intros i.
  destruct (l1 !! i) as [b1 |] eqn:E1, (l2 !! i) as [b2 |] eqn:E2.
  - f_equal. specialize (H1 i b1 E1). specialize (H2 i b2 E2).
    destruct b1, b2; try done.
    + symmetry. apply H2. by apply H1.
    + apply H1. by apply H2.
  - apply lookup_lt_Some in E1. apply lookup_ge_None in E2. lia.
  - apply lookup_ge_None in E1. apply lookup_lt_Some in E2. lia.
  - done.
Qed.

Section FocusMoves.
Context `{Components}.

Lemma run_tabs write (k : nat) m :
  small m -> focus_ok m ->
  exists m',
    result (run (replicate k (write, KeyMsg "tab")) m) = Ok m' /\
    small m' /\ focus_ok m' /\
    length (topPanes m') = length (topPanes m) /\
    focusIndex m'
    = (focusIndex m + Z.of_nat k) mod (len (topPanes m) + 1).
Proof.
  revert m. induction k as [| k IH]; intros m Hs Hf.
  - exists m. simpl. do 4 (split; [done |]).
    pose proof (focus_ok_range m Hf). rewrite Z.add_0_r.
    symmetry. apply Z.mod_small. lia.
  - destruct (Update_tab write m Hs Hf) as (m1 & c & Hu & Hs1 & Hf1 & Hl1 & Hi1).
    destruct (IH m1 Hs1 Hf1) as (m' & Hr & Hs' & Hf' & Hl' & Hi').
    exists m'. split.
    { cbn [replicate run]. by rewrite (bind_result _ _ _ Hu). }
    do 2 (split; [done |]). split; [congruence |].
    rewrite Hi', Hi1. unfold len. rewrite Hl1.
    rewrite Zplus_mod_idemp_l. f_equal. lia.
Qed.

(** X4.  From any model the event loop reaches, k presses of tab return
    normally and leave [focusIndex] at (focusIndex + k) mod 5: the focus
    walks the four list panes and the output pane in a cycle, and after
    any multiple of five presses every focus flag is as it was. *)
Theorem X4_tab_cycles (evs : list (writer * Msg)) (write : writer)
    (m : model) (k : nat) :
  result (run evs initialModel) = Ok m ->
  exists m',
    result (run (replicate k (write, KeyMsg "tab")) m) = Ok m' /\
    focusIndex m' = (focusIndex m + Z.of_nat k) mod 5 /\
    (Z.of_nat k mod 5 = 0 ->
     focusIndex m' = focusIndex m /\ focus_flags m' = focus_flags m).
Proof.
  intros Hr. destruct initialModel_focus_ok as [Hs0 Hf0].
  apply run_focus_ok in Hr as (Hs & Hf & Hl); [| done | done].
  destruct (run_tabs write k m Hs Hf) as (m' & Hk & Hs' & Hf' & Hl' & Hi').
  assert (len (topPanes m) = 4) as Hlen by (unfold len; by rewrite Hl).
  rewrite Hlen in Hi'. change (4 + 1) with 5 in Hi'.
  exists m'. split; [done |]. split; [done |].
  intros Hk5. pose proof (focus_ok_range m Hf) as Hrange.
  assert (focusIndex m' = focusIndex m) as Hsame.
  { rewrite Hi'.
    rewrite <- (Zplus_mod_idemp_r (Z.of_nat k) (focusIndex m) 5).
    rewrite Hk5, Z.add_0_r. apply Z.mod_small. lia. }
  split; [done |].
  destruct Hf as [_ Hon], Hf' as [_ Hon']. rewrite Hsame in Hon'.
  symmetry. apply (only_unique _ _ _ Hon Hon').
  by rewrite !focus_flags_length, Hl'.
Qed.

Lemma Update_shape write m msg m' cmd :
  msg <> KeyMsg "tab" ->
  result (Update write m msg) = Ok (m', cmd) -> shape m' = shape m.
Proof.
  intros Hne Hu.
  destruct msg as [w h | key | tag]; simpl in Hu.
  - apply update_focused_shape in Hu. by rewrite Hu, resize_shape.
  - destruct (String.eqb_spec key "tab") as [-> | _]; [done |].
    destruct (String.eqb key " "); [by eapply key_space_shape |].
    destruct (String.eqb key "up" || String.eqb key "down");
      [by eapply key_up_down_shape |].
    destruct (String.eqb key "enter"); [by eapply key_enter_shape |].
    destruct (String.eqb key "q").
    { rewrite result_ret in Hu. by injection Hu as <- _. }
    by eapply update_focused_shape.
  - by eapply update_focused_shape.
Qed.

(** X5.  Tab is the only message that moves the focus: for any model and
    any other message, an [Update] that returns leaves [focusIndex], every
    focus flag, the title and the kind (menu or not) of every pane, and
    both connections as they were. *)
Theorem X5_only_tab_moves_focus (write : writer) (m m' : model) (msg : Msg)
    (cmd : Cmd) :
  msg <> KeyMsg "tab" ->
  result (Update write m msg) = Ok (m', cmd) ->
  focusIndex m' = focusIndex m /\
  focus_flags m' = focus_flags m /\
  pane_title <$> topPanes m' = pane_title <$> topPanes m /\
  isMenu <$> topPanes m' = isMenu <$> topPanes m /\
  conn9001 m' = conn9001 m /\ conn9002 m' = conn9002 m.
Proof.
  intros Hne Hu. pose proof (Update_shape _ _ _ _ _ Hne Hu) as Hsh.
  destruct (shape_focus _ _ Hsh) as (Hi & Hf & _).
  destruct (shape_conns _ _ Hsh) as [Hc1 Hc2].
  do 2 (split; [done |]).
  injection Hsh as _ Hp _ _ _.
  assert (forall l : list pane,
            pane_title <$> l = (fun s => s.1.1) <$> (pane_shape <$> l)) as Ht.
  { intros l. rewrite <- list_fmap_compose. by apply list_fmap_ext. }
  assert (forall l : list pane,
            isMenu <$> l = (fun s => s.1.2) <$> (pane_shape <$> l)) as Hm.
  { intros l. rewrite <- list_fmap_compose. by apply list_fmap_ext. }
  rewrite !Ht, !Hm, Hp. done.
Qed.

End FocusMoves.

Lemma X4_tab_cycles_witness :
  result (@run arrows [(write_ok, tab); (write_ok, tab); (write_ok, down)]
            initialModel) = Ok at_cmd2 /\
  exists m',
    result (@run arrows (replicate 5 (write_ok, KeyMsg "tab")) at_cmd2)
    = Ok m' /\ focusIndex m' = 2.
Proof.
  assert (result (@run arrows
                    [(write_ok, tab); (write_ok, tab); (write_ok, down)]
                    initialModel) = Ok at_cmd2) as Hr by reflexivity.
  split; [exact Hr |].
  destruct (@X4_tab_cycles arrows _ write_ok at_cmd2 5%nat Hr)
    as (m' & Hk & Hi & _).
  exists m'. split; [exact Hk | exact Hi].
Defined.

Lemma X5_only_tab_moves_focus_witness :
  KeyMsg "down" <> KeyMsg "tab" /\
  focusIndex at_cmd2 = 2.
Proof.
  assert (KeyMsg "down" <> KeyMsg "tab") as Hne by discriminate.
  split; [exact Hne |].
  assert (result (@Update arrows write_ok (after [tab; tab]) (KeyMsg "down"))
          = Ok (at_cmd2, CmdNil)) as Hu by reflexivity.
  destruct (@X5_only_tab_moves_focus arrows write_ok (after [tab; tab])
              at_cmd2 (KeyMsg "down") CmdNil Hne Hu) as (Hi & _).
  rewrite Hi. reflexivity.
Defined.

(** ** Update: which pane a key reaches *)

Lemma alter_other {A} (f : A -> A) (l : list A) (z : Z) (i : nat) :
  0 <= z -> Z.of_nat i <> z -> alter f (Z.to_nat z) l !! i = l !! i.
Proof. intros H0 Hne. apply list_lookup_alter_ne. lia. Qed.

Section Routing.
Context `{Components}.

Lemma update_focused_others m msg m' cmd (i : nat) :
  result (update_focused m msg) = Ok (m', cmd) ->
  Z.of_nat i <> focusIndex m ->
  topPanes m' !! i = topPanes m !! i.
Proof.
  unfold update_focused. intros Hu Hne. inv_M; [| done].
  simpl. apply alter_other; lia.
Qed.

Lemma key_space_others m msg m' cmd (i : nat) :
  result (key_space m msg) = Ok (m', cmd) ->
  Z.of_nat i <> focusIndex m ->
  topPanes m' !! i = topPanes m !! i.
Proof.
  unfold key_space. intros Hu Hne. inv_M; simpl in *;
    repeat rewrite alter_other by lia; done.
Qed.

Lemma key_up_down_others m msg m' cmd (i : nat) :
  result (key_up_down m msg) = Ok (m', cmd) ->
  Z.of_nat i <> focusIndex m ->
  topPanes m' !! i = topPanes m !! i.
Proof.
  unfold key_up_down. intros Hu Hne.
  destruct (focusIndex m <? len (topPanes m)).
  { inv_M. simpl. apply alter_other; lia. }
  destruct (outputPaneFocused m); [by inv_M |].
  by eapply update_focused_others.
Qed.

Lemma key_enter_others write m msg m' cmd (i : nat) :
  result (key_enter write m msg) = Ok (m', cmd) ->
  Z.of_nat i <> focusIndex m ->
  topPanes m' !! i = topPanes m !! i.
Proof.
  unfold key_enter. intros Hu Hne.
  destruct (focusIndex m <? len (topPanes m));
    [| by eapply update_focused_others].
  apply bind_ok in Hu as (p & _ & Hu).
  destruct (negb (isMenu p)); [| by eapply update_focused_others].
  apply bind_ok in Hu as (item & _ & Hu).
  destruct (String.eqb (FilterValue item) "Exit").
  { rewrite result_ret in Hu. by injection Hu as <- _. }
  apply bind_ok in Hu as (m1 & Hm1 & Hu).
  assert (topPanes m1 = topPanes m /\ focusIndex m1 = focusIndex m)
    as [Hp1 Hi1].
  { destruct (conn9001 m) as [c |]; [| by inv_M].
    apply bind_ok in Hm1 as ([] & _ & Hm1).
    destruct (write c _); by inv_M. }
  rewrite <- Hp1. eapply update_focused_others; [exact Hu |].
  by rewrite Hi1.
Qed.

(** X6.  A key other than tab, or a message that is neither a key nor a
    resize, reaches the focused pane only: when [Update] returns, every
    list pane whose position is not [focusIndex] is exactly as before (its
    items, selection, cursor, delegate and sizes).  With the focus on the
    output pane no list pane changes. *)
Theorem X6_key_reaches_focused_pane_only (write : writer) (m m' : model)
    (msg : Msg) (cmd : Cmd) (i : nat) :
  (forall w h, msg <> WindowSizeMsg w h) ->
  msg <> KeyMsg "tab" ->
  result (Update write m msg) = Ok (m', cmd) ->
  Z.of_nat i <> focusIndex m ->
  topPanes m' !! i = topPanes m !! i.
Proof.
  intros Hsize Htab Hu Hne.
  destruct msg as [w h | key | tag]; simpl in Hu.
  - by destruct (Hsize w h).
  - destruct (String.eqb_spec key "tab") as [-> | _]; [done |].
    destruct (String.eqb key " "); [by eapply key_space_others |].
    destruct (String.eqb key "up" || String.eqb key "down");
      [by eapply key_up_down_others |].
    destruct (String.eqb key "enter"); [by eapply key_enter_others |].
    destruct (String.eqb key "q").
    { rewrite result_ret in Hu. by injection Hu as <- _. }
    by eapply update_focused_others.
  - by eapply update_focused_others.
Qed.

End Routing.

Lemma X6_key_reaches_focused_pane_only_witness :
  (forall w h, KeyMsg "down" <> WindowSizeMsg w h) /\
  KeyMsg "down" <> KeyMsg "tab" /\
  topPanes at_cmd2 !! 0%nat = topPanes (after [tab; tab]) !! 0%nat.
Proof.
  assert (forall w h, KeyMsg "down" <> WindowSizeMsg w h) as Hs
    by discriminate.
  assert (KeyMsg "down" <> KeyMsg "tab") as Hne by discriminate.
  split; [exact Hs |]. split; [exact Hne |].
  apply (@X6_key_reaches_focused_pane_only arrows write_ok
           (after [tab; tab]) at_cmd2 (KeyMsg "down") CmdNil 0%nat Hs Hne).
  - reflexivity.
  - discriminate.
Defined.

(** ** Update: when it panics *)

Section Panics.
Context `{C : Components}.

Lemma key_up_down_total m msg :
  0 <= focusIndex m ->
  exists m' cmd, result (key_up_down m msg) = Ok (m', cmd).
Proof.
  intros H0. unfold key_up_down, update_pane.
  destruct (focusIndex m <? len (topPanes m)) eqn:Hlt.
  - destruct (index_in_range (topPanes m) (focusIndex m)) as (p & _ & ->);
      [lia |].
    rewrite ret_bind. destruct (list_Update (items p) msg) as [l cmd].
    rewrite !ret_bind. by eexists _, _.
  - destruct (outputPaneFocused m); [| by apply update_focused_total].
    destruct (viewport_Update (outputPane m) msg) as [v cmd].
    by eexists _, _.
Qed.

Lemma key_enter_total write m msg :
  0 <= focusIndex m -> cursors_ok m ->
  exists m' cmd, result (key_enter write m msg) = Ok (m', cmd).
Proof.
  intros H0 Hc. unfold key_enter.
  destruct (focusIndex m <? len (topPanes m)) eqn:Hlt;
    [| by apply update_focused_total].
  destruct (index_in_range (topPanes m) (focusIndex m)) as (p & Hp & ->);
    [lia |].
  rewrite ret_bind.
  destruct (negb (isMenu p)); [| by apply update_focused_total].
  pose proof (Forall_lookup_1 _ _ _ _ Hc Hp) as Hin.
  destruct (index_in_range (Items (items p)) (Index (items p)))
    as (item & _ & ->); [exact Hin |].
  rewrite ret_bind.
  destruct (String.eqb (FilterValue item) "Exit"); [by eexists _, _ |].
  destruct (conn9001 m) as [c |].
  - destruct (write c (FilterValue item +:+ newline)) as [err |].
    + destruct (update_focused_total
                  (with_send_error err m) msg H0) as (m' & cmd & Hu).
      exists m', cmd. erewrite bind_result; [exact Hu | reflexivity].
    + destruct (update_focused_total m msg H0) as (m' & cmd & Hu).
      exists m', cmd. erewrite bind_result; [exact Hu | reflexivity].
  - rewrite ret_bind. by apply update_focused_total.
Qed.

Lemma Update_total write m msg :
  small m -> focus_ok m -> cursors_ok m ->
  ~ (msg = KeyMsg " " /\ focusIndex m = len (topPanes m)) ->
  exists m' cmd, result (Update write m msg) = Ok (m', cmd).
Proof.
  intros Hs Hf Hc Hnot. pose proof (focus_ok_range m Hf) as Hr.
  destruct msg as [w h | key | tag]; simpl.
  - apply update_focused_total. simpl. lia.
  - destruct (String.eqb_spec key "tab") as [-> | _].
    { destruct (Update_tab write m Hs Hf) as (m' & cmd & Hu & _).
      by exists m', cmd. }
    destruct (String.eqb_spec key " ") as [-> | _].
    { assert (focusIndex m < len (topPanes m)) as Hlt.
      { destruct (decide (focusIndex m = len (topPanes m))); [| lia].
        by destruct Hnot. }
      destruct (index_in_range (topPanes m) (focusIndex m))
        as (p & Hp & _); [lia |].
      pose proof (Forall_lookup_1 _ _ _ _ Hc Hp) as Hin.
      destruct (index_in_range (Items (items p)) (Index (items p)))
        as (item & Hitem & _); [exact Hin |].
      pose proof (Update_space_on_list_pane write m p item
                    (proj1 Hr) Hp (proj1 Hin) Hitem) as Heq.
      simpl in Heq. rewrite Heq.
      destruct (list_Update (items (after_space p item)) (KeyMsg " "))
        as [l cmd].
      by eexists _, _. }
    destruct (String.eqb key "up" || String.eqb key "down").
    { apply key_up_down_total. lia. }
    destruct (String.eqb key "enter").
    { apply key_enter_total; [lia | done]. }
    destruct (String.eqb key "q"); [by eexists _, _ |].
    apply update_focused_total. lia.
  - apply update_focused_total. lia.
Qed.

Hypothesis Hcursor : keeps_cursor C.

Lemma cursors_ok_forward m (i : nat) p l cmd msg :
  cursors_ok m ->
  topPanes m !! i = Some p ->
  list_Update (items p) msg = (l, cmd) ->
  Forall (fun p => cursor_in (items p)) (alter (set_items l) i (topPanes m)).
Proof.
  intros Hok Hp Hl. apply Forall_alter; [done |].
  intros x Hx Hpx. rewrite Hp in Hx. injection Hx as <-.
  pose proof (Hcursor (items p) msg Hpx) as Hn. by rewrite Hl in Hn.
Qed.

Lemma update_focused_cursors_ok m msg m' cmd :
  cursors_ok m -> result (update_focused m msg) = Ok (m', cmd) ->
  cursors_ok m'.
Proof.
  intros Hok. unfold update_focused. intros Hu. inv_M; [| done].
  unfold cursors_ok. simpl. by eapply cursors_ok_forward.
Qed.

Lemma resize_cursors_ok w h m : cursors_ok m -> cursors_ok (resize w h m).
Proof.
  intros Hok. unfold cursors_ok, resize. simpl.
  change (map ?g ?l) with (g <$> l).
  apply Forall_fmap. eapply Forall_impl; [exact Hok |].
  by intros p Hp.
Qed.

Lemma key_space_cursors_ok m msg m' cmd :
  cursors_ok m -> result (key_space m msg) = Ok (m', cmd) ->
  cursors_ok m'.
Proof.
  intros Hok. unfold key_space. intros Hu.
  apply bind_ok in Hu as (m1 & Hm1 & Hu).
  assert (cursors_ok m1) as Hok1.
  { clear Hu. inv_M; try done. unfold cursors_ok. simpl.
    apply Forall_alter; [done |].
    intros p Hp Hpok.
    match goal with
    | Hx : topPanes m !! _ = Some ?x |- _ =>
        rewrite Hx in Hp; injection Hp as <-
    end.
    unfold cursor_in, len, Items, Index in *. simpl.
    by rewrite length_insert. }
  clear Hm1. inv_M. unfold cursors_ok. simpl.
  by eapply cursors_ok_forward.
Qed.

End Panics.

Section PanicsOnly.
Context `{C : Components}.
Hypothesis Hcursor : keeps_cursor C.

Lemma key_up_down_cursors_ok m msg m' cmd :
  cursors_ok m -> result (key_up_down m msg) = Ok (m', cmd) ->
  cursors_ok m'.
Proof.
  intros Hok. unfold key_up_down. intros Hu.
  destruct (focusIndex m <? len (topPanes m)).
  { inv_M. unfold cursors_ok. simpl. by eapply cursors_ok_forward. }
  destruct (outputPaneFocused m); [by inv_M |].
  by eapply update_focused_cursors_ok.
Qed.

Lemma key_enter_cursors_ok write m msg m' cmd :
  cursors_ok m -> result (key_enter write m msg) = Ok (m', cmd) ->
  cursors_ok m'.
Proof.
  intros Hok. unfold key_enter. intros Hu.
  destruct (focusIndex m <? len (topPanes m));
    [| by eapply update_focused_cursors_ok].
  apply bind_ok in Hu as (p & _ & Hu).
  destruct (negb (isMenu p)); [| by eapply update_focused_cursors_ok].
  apply bind_ok in Hu as (item & _ & Hu).
  destruct (String.eqb (FilterValue item) "Exit").
  { rewrite result_ret in Hu. by injection Hu as <- _. }
  apply bind_ok in Hu as (m1 & Hm1 & Hu).
  eapply update_focused_cursors_ok; [exact Hcursor | | exact Hu].
  destruct (conn9001 m) as [c |]; [| by inv_M].
  apply bind_ok in Hm1 as ([] & _ & Hm1).
  destruct (write c _); by inv_M.
Qed.

Lemma key_tab_Forall (P : pane -> Prop) m m' :
  (forall p b, P p -> P (set_focused b p)) ->
  (forall p d, P p -> P (set_items (SetDelegate d (items p)) p)) ->
  Forall P (topPanes m) -> result (key_tab m) = Ok m' ->
  Forall P (topPanes m').
Proof.
  intros Hfoc Hdel Hok. unfold key_tab. intros Hk.
  inv_M; simpl; apply Forall_lookup_2; intros i p Hp;
    apply list_lookup_imap_Some in Hp as (q & Hq & ->);
    apply Hdel; (eapply Forall_lookup_1; [| exact Hq]);
    repeat (apply Forall_alter; [| intros ? _ ?; by apply Hfoc]); done.
Qed.

Lemma key_tab_cursors_ok m m' :
  cursors_ok m -> result (key_tab m) = Ok m' -> cursors_ok m'.
Proof.
  apply (key_tab_Forall (fun p => cursor_in (items p))); by intros.
Qed.

Lemma Update_cursors_ok write m msg m' cmd :
  cursors_ok m -> result (Update write m msg) = Ok (m', cmd) ->
  cursors_ok m'.
Proof.
  intros Hok Hu.
  destruct msg as [w h | key | tag]; simpl in Hu.
  - eapply update_focused_cursors_ok; [exact Hcursor | | exact Hu].
    by apply resize_cursors_ok.
  - destruct (String.eqb key "tab").
    { apply bind_ok in Hu as (m1 & Hm1 & Hu).
      eapply update_focused_cursors_ok; [exact Hcursor | | exact Hu].
      by eapply key_tab_cursors_ok. }
    destruct (String.eqb key " "); [by eapply key_space_cursors_ok |].
    destruct (String.eqb key "up" || String.eqb key "down");
      [by eapply key_up_down_cursors_ok |].
    destruct (String.eqb key "enter"); [by eapply key_enter_cursors_ok |].
    destruct (String.eqb key "q").
    { rewrite result_ret in Hu. by injection Hu as <- _. }
    by eapply update_focused_cursors_ok.
  - by eapply update_focused_cursors_ok.
Qed.

Lemma initialModel_cursors_ok : cursors_ok initialModel.
Proof. repeat constructor; done. Qed.

Lemma run_cursors_ok evs m m' :
  cursors_ok m -> result (run evs m) = Ok m' -> cursors_ok m'.
Proof.
  revert m. induction evs as [| [write msg] evs IH]; intros m Hok Hr.
  - simpl in Hr. by injection Hr as <-.
  - simpl in Hr. apply bind_ok in Hr as ([m1 cmd] & Hu & Hr).
    apply (IH m1); [| done]. by eapply Update_cursors_ok.
Qed.

(** X7.  The only panic of the event loop.  Let the list widget keep its
    cursor on an item.  In a model that the event loop reaches from the
    initial model, [Update] panics on a message if and only if the message
    is the space key and the output pane has the focus ([focusIndex] = 4);
    on every other message it returns a model and a command. *)
Theorem X7_update_panics_only_on_space_at_output (evs : list (writer * Msg))
    (write : writer) (m : model) (msg : Msg) :
  result (run evs initialModel) = Ok m ->
  ((exists why, result (Update write m msg) = Panic why) <->
   msg = KeyMsg " " /\ focusIndex m = 4) /\
  ((exists m' cmd, result (Update write m msg) = Ok (m', cmd)) <->
   ~ (msg = KeyMsg " " /\ focusIndex m = 4)).
Proof.
  intros Hr. destruct initialModel_focus_ok as [Hs0 Hf0].
  pose proof (run_cursors_ok _ _ _ initialModel_cursors_ok Hr) as Hc.
  apply run_focus_ok in Hr as (Hs & Hf & Hl); [| done | done].
  assert (len (topPanes m) = 4) as Hlen by (unfold len; by rewrite Hl).
  assert (msg = KeyMsg " " /\ focusIndex m = 4 ->
          result (Update write m msg) = Panic "index out of range") as Hp.
  { intros [-> Hi]. rewrite Update_space_output; [done | congruence]. }
  assert (~ (msg = KeyMsg " " /\ focusIndex m = 4) ->
          exists m' cmd, result (Update write m msg) = Ok (m', cmd)) as Ht.
  { intros Hn. apply Update_total; try done. by rewrite Hlen. }
  split; split.
  - intros [why Hw].
    destruct (decide (msg = KeyMsg " ")) as [-> | Hne].
    + destruct (decide (focusIndex m = 4)); [done |].
      destruct Ht as (m' & cmd & Hu); [by intros [_ ?] |]. congruence.
    + destruct Ht as (m' & cmd & Hu); [by intros [? _] |]. congruence.
  - intros Hsp. eexists. by apply Hp.
  - intros (m' & cmd & Hu) Hsp. apply Hp in Hsp. congruence.
  - apply Ht.
Qed.

End PanicsOnly.

Lemma arrows_keeps_cursor : keeps_cursor arrows.
Proof.
  intros l msg Hin. simpl. unfold arrows_list_Update.
  destruct msg as [w h | key | tag]; try done.
  unfold cursor_in, Index, Items, len in *.
  destruct (String.eqb key "up"); [simpl; lia |].
  destruct (String.eqb key "down"); [simpl; lia | done].
Qed.

Lemma X7_update_panics_only_on_space_at_output_witness :
  keeps_cursor arrows /\
  result (@run arrows [(write_ok, tab); (write_ok, tab); (write_ok, down)]
            initialModel) = Ok at_cmd2 /\
  exists m' cmd,
    result (@Update arrows write_ok at_cmd2 (KeyMsg " ")) = Ok (m', cmd).
Proof.
  assert (result (@run arrows
                    [(write_ok, tab); (write_ok, tab); (write_ok, down)]
                    initialModel) = Ok at_cmd2) as Hr by reflexivity.
  split; [exact arrows_keeps_cursor |]. split; [exact Hr |].
  apply (@X7_update_panics_only_on_space_at_output arrows
           arrows_keeps_cursor _ write_ok at_cmd2 (KeyMsg " ") Hr).
  intros [_ Hi]. discriminate Hi.
Defined.

(** ** Update: the selection key and the confirm key on other panes *)

Section Keys.
Context `{Components}.

Lemma toggle_toggle item : toggle (toggle item) = item.
Proof. destruct item as [t d []]; reflexivity. Qed.

(** X8.  Pressing the selection key twice on a menu pane restores the
    model: the item under the cursor has its [selected] flipped and
    flipped back, and nothing else changes.  The list widget is assumed to
    ignore the space key it is handed. *)
Theorem X8_space_twice_restores (write : writer) (m : model) (p : pane)
    (item : menuItem) :
  at_cursor m p item ->
  isMenu p = true ->
  (forall l, list_Update l (KeyMsg " ") = (l, CmdNil)) ->
  result (run [(write, KeyMsg " "); (write, KeyMsg " ")] m) = Ok m /\
  exists m1 p1,
    result (Update write m (KeyMsg " ")) = Ok (m1, CmdNil) /\
    at_cursor m1 p1 (toggle item).
Proof.
  intros (H0 & Hp & Hi0 & Hitem) Hmenu Hignore.
  pose proof (lookup_lt_Some _ _ _ Hp) as Hlt.
  pose proof (lookup_lt_Some _ _ _ Hitem) as Hilt.
  set (p1 := after_space p item).
  set (m1 := set_topPanes (<[Z.to_nat (focusIndex m):=p1]> (topPanes m)) m).
  assert (set_items (items p1) p1 = p1) as Heta by apply set_items_same.
  assert (Update write m (KeyMsg " ") = mret (m1, CmdNil)) as Hu1.
  { rewrite (Update_space_on_list_pane write m p item H0 Hp Hi0 Hitem).
    cbv zeta. fold p1. rewrite Hignore. by rewrite Heta. }
  assert (at_cursor m1 p1 (toggle item)) as Hat1.
  { unfold at_cursor, m1, p1, after_space. rewrite Hmenu. simpl.
    split; [done |]. split; [by apply list_lookup_insert_eq |].
    split; [done |]. by apply list_lookup_insert_eq. }
  assert (isMenu p1 = true) as Hmenu1
    by (unfold p1, after_space; by rewrite Hmenu).
  assert (after_space p1 (toggle item) = p) as Hback.
  { unfold after_space at 1. rewrite Hmenu1.
    unfold p1, after_space. rewrite Hmenu. simpl.
    rewrite toggle_toggle, list_insert_insert_eq.
    rewrite list_insert_id by done.
    destruct p as [t [? ? ? ? ? ?] ? ?]. reflexivity. }
  assert (Update write m1 (KeyMsg " ") = mret (m, CmdNil)) as Hu2.
  { destruct Hat1 as (H0' & Hp' & Hi0' & Hitem').
    rewrite (Update_space_on_list_pane write m1 p1 (toggle item)
               H0' Hp' Hi0' Hitem').
    cbv zeta. rewrite Hback, Hignore.
    rewrite (set_items_same p). unfold m1. simpl.
    rewrite list_insert_insert_eq, list_insert_id by done.
    by destruct m. }
  split.
  - cbn [run]. rewrite Hu1, ret_bind. cbv beta iota.
    rewrite Hu2, ret_bind. reflexivity.
  - exists m1, p1. by rewrite Hu1.
Qed.

(** X9.  A cursor that is not on an item makes the two keys that read the
    item panic: with the focus on a list whose [Index()] is outside its
    items (an empty list in particular), the selection key panics if the
    pane is a menu and the confirm key panics if it is not.  Nothing is
    written before the panic. *)
Theorem X9_cursor_off_items_panics (write : writer) (m : model) (p : pane) :
  0 <= focusIndex m ->
  topPanes m !! Z.to_nat (focusIndex m) = Some p ->
  ~ (0 <= Index (items p) < len (Items (items p))) ->
  Update write m (KeyMsg (if isMenu p then " " else "enter"))
  = panic "index out of range".
Proof.
  intros H0 Hp Hout.
  pose proof (lookup_lt_Some _ _ _ Hp) as Hlt.
  destruct (isMenu p) eqn:Hmenu; simpl.
  - unfold key_space.
    replace (focusIndex m <? len (topPanes m)) with true
      by (unfold len; lia).
    rewrite (lookup_index _ _ p) by done.
    rewrite ret_bind, Hmenu, index_out_of_range by done. done.
  - unfold key_enter.
    replace (focusIndex m <? len (topPanes m)) with true
      by (unfold len; lia).
    rewrite (lookup_index _ _ p) by done.
    rewrite ret_bind, Hmenu. simpl.
    rewrite index_out_of_range by done. done.
Qed.

(** X10.  The confirm key dispatches from a command pane only: when the
    focused pane is a menu, or the output pane has the focus, [Update] on
    enter does what the default path does (hands the key to the focused
    widget) and performs no effect, whether or not the model holds a
    connection. *)
Theorem X10_enter_off_command_pane (write : writer) (m : model) :
  (len (topPanes m) <= focusIndex m \/
   exists p, 0 <= focusIndex m /\
             topPanes m !! Z.to_nat (focusIndex m) = Some p /\
             isMenu p = true) ->
  Update write m (KeyMsg "enter") = update_focused m (KeyMsg "enter") /\
  effects (Update write m (KeyMsg "enter")) = [].
Proof.
  intros Hcase.
  assert (Update write m (KeyMsg "enter")
          = update_focused m (KeyMsg "enter")) as Heq.
  { simpl. unfold key_enter. destruct Hcase as [Hge | (p & H0 & Hp & Hmenu)].
    - by replace (focusIndex m <? len (topPanes m)) with false by lia.
    - pose proof (lookup_lt_Some _ _ _ Hp) as Hlt.
      replace (focusIndex m <? len (topPanes m)) with true
        by (unfold len; lia).
      rewrite (lookup_index _ _ p) by done.
      by rewrite ret_bind, Hmenu. }
  split; [done |]. rewrite Heq. apply update_focused_silent.
Qed.

End Keys.

Lemma X8_space_twice_restores_witness :
  at_cursor initialModel pane1 (plain_item "Option A") /\
  result (@run arrows [(write_ok, KeyMsg " "); (write_ok, KeyMsg " ")]
            initialModel) = Ok initialModel.
Proof.
  assert (at_cursor initialModel pane1 (plain_item "Option A")) as Hat.
  { unfold at_cursor. simpl. repeat split; (lia || reflexivity). }
  split; [exact Hat |].
  apply (@X8_space_twice_restores arrows write_ok initialModel pane1
           (plain_item "Option A") Hat).
  - reflexivity.
  - intros l. reflexivity.
Defined.

Lemma X9_cursor_off_items_panics_witness :
  @Update arrows write_ok empty_menu (KeyMsg " ")
  = panic "index out of range".
Proof.
  apply (@X9_cursor_off_items_panics arrows write_ok empty_menu
           {| pane_title := "Empty"; items := createList "Empty" [] 10 true;
              isMenu := true; focused := true |}).
  - simpl. lia.
  - reflexivity.
  - simpl. unfold len. simpl. lia.
Defined.

Lemma X10_enter_off_command_pane_witness :
  effects (@Update arrows write_fails (connected initialModel)
             (KeyMsg "enter")) = [].
Proof.
  apply (@X10_enter_off_command_pane arrows write_fails
           (connected initialModel)).
  right. exists pane1. split; [simpl; lia |]. split; reflexivity.
Defined.

(** ** Update: the size of the window *)

Section Size.
Context `{Components}.

Lemma update_focused_size m msg m' cmd :
  result (update_focused m msg) = Ok (m', cmd) ->
  (width m', height m') = (width m, height m).
Proof. unfold update_focused. intros Hu. by inv_M. Qed.

Lemma key_tab_size m m' :
  result (key_tab m) = Ok m' -> (width m', height m') = (width m, height m).
Proof. unfold key_tab. intros Hu. by inv_M. Qed.

Lemma key_space_size m msg m' cmd :
  result (key_space m msg) = Ok (m', cmd) ->
  (width m', height m') = (width m, height m).
Proof. unfold key_space. intros Hu. by inv_M. Qed.

Lemma key_up_down_size m msg m' cmd :
  result (key_up_down m msg) = Ok (m', cmd) ->
  (width m', height m') = (width m, height m).
Proof.
  unfold key_up_down. intros Hu.
  destruct (focusIndex m <? len (topPanes m)); [by inv_M |].
  destruct (outputPaneFocused m); [by inv_M |].
  by eapply update_focused_size.
Qed.

Lemma key_enter_size write m msg m' cmd :
  result (key_enter write m msg) = Ok (m', cmd) ->
  (width m', height m') = (width m, height m).
Proof.
  unfold key_enter. intros Hu.
  destruct (focusIndex m <? len (topPanes m));
    [| by eapply update_focused_size].
  apply bind_ok in Hu as (p & _ & Hu).
  destruct (negb (isMenu p)); [| by eapply update_focused_size].
  apply bind_ok in Hu as (item & _ & Hu).
  destruct (String.eqb (FilterValue item) "Exit").
  { rewrite result_ret in Hu. by injection Hu as <- _. }
  apply bind_ok in Hu as (m1 & Hm1 & Hu).
  apply update_focused_size in Hu. rewrite Hu.
  destruct (conn9001 m) as [c |]; [| by inv_M].
  apply bind_ok in Hm1 as ([] & _ & Hm1).
  destruct (write c _); by inv_M.
Qed.

Lemma Update_size write m msg m' cmd :
  result (Update write m msg) = Ok (m', cmd) ->
  (width m', height m')
  = match msg with
    | WindowSizeMsg w h => (w, h)
    | _ => (width m, height m)
    end.
Proof.
  intros Hu. destruct msg as [w h | key | tag]; simpl in Hu.
  - by apply update_focused_size in Hu.
  - destruct (String.eqb key "tab").
    { apply bind_ok in Hu as (m1 & Hm1 & Hu).
      apply key_tab_size in Hm1. apply update_focused_size in Hu.
      congruence. }
    destruct (String.eqb key " "); [by eapply key_space_size |].
    destruct (String.eqb key "up" || String.eqb key "down");
      [by eapply key_up_down_size |].
    destruct (String.eqb key "enter"); [by eapply key_enter_size |].
    destruct (String.eqb key "q").
    { rewrite result_ret in Hu. by injection Hu as <- _. }
    by eapply update_focused_size.
  - by eapply update_focused_size.
Qed.

Lemma run_size evs m m' :
  result (run evs m) = Ok m' ->
  (width m', height m') = last_size evs (width m, height m).
Proof.
  revert m. induction evs as [| [write msg] evs IH]; intros m Hr.
  - simpl in Hr. by injection Hr as <-.
  - simpl in Hr. apply bind_ok in Hr as ([m1 cmd] & Hu & Hr).
    apply Update_size in Hu. rewrite (IH m1 Hr), Hu.
    by destruct msg.
Qed.

Lemma exec_copy_size acts w w' :
  result (exec acts w) = Ok w' ->
  (width (copy w'), height (copy w')) = (width (copy w), height (copy w)).
Proof.
  revert w. induction acts as [| a acts IH]; intros w He.
  - simpl in He. by injection He as <-.
  - simpl in He. apply bind_ok in He as (w1 & Hs & He).
    rewrite (IH w1 He). clear IH He.
    destruct a as [write msg | dial | r]; simpl in Hs.
    + apply bind_ok in Hs as ([m cmd] & _ & Hs).
      rewrite result_ret in Hs. by injection Hs as <-.
    + destruct (stage w).
      2, 3: rewrite result_ret in Hs; by injection Hs as <-.
      rewrite connectToServer_eq in Hs. simpl in Hs. by injection Hs as <-.
    + destruct (stage w).
      1, 3: rewrite result_ret in Hs; by injection Hs as <-.
      rewrite listen_turn_eq in Hs.
      destruct r; simpl in Hs; by injection Hs as <-.
Qed.

(** X11.  The size set by [Init] is lost.  [Init] sets width 80 and
    height 24 on its own copy of the model.  In every state of the running
    program the event loop's model has the size of the last resize message
    it handled, and 0 by 0 before the first one, while the copy keeps 80 by
    24 whatever messages arrive. *)
Theorem X11_size_is_last_resize_or_zero (acts : list action) (w : world) :
  result (program acts) = Ok w ->
  (width (loop w), height (loop w)) = last_size (events_of acts) (0, 0) /\
  (width (copy w), height (copy w)) = (80, 24).
Proof.
  intros Hp. destruct boot_eq as (w0 & Hb & Ha0 & _).
  assert (w0 = booted) as ->.
  { unfold boot in Hb. simpl in Hb. by injection Hb as <-. }
  unfold program in Hp. rewrite Hb in Hp.
  rewrite (bind_result _ _ booted) in Hp by done.
  split.
  - apply exec_loop in Hp as [_ Hr]; [| done].
    by apply run_size in Hr.
  - by apply exec_copy_size in Hp.
Qed.

(** X12.  Heights after a resize.  Let [Update] handle a resize to w by h
    (sizes of a terminal: non-negative Go ints).  Every list pane that does
    not have the focus gets the height min(number of its items, h/2 - 2),
    which is negative when h < 4, and is otherwise unchanged; with the
    focus on a list pane the output pane gets width w - 2 and height h/2
    and keeps its content. *)
Theorem X12_resize_heights (write : writer) (m m' : model) (w h : Z)
    (cmd : Cmd) :
  0 <= w < 2 ^ 63 -> 0 <= h < 2 ^ 63 ->
  result (Update write m (WindowSizeMsg w h)) = Ok (m', cmd) ->
  (forall (i : nat) p,
     Z.of_nat i <> focusIndex m ->
     topPanes m !! i = Some p ->
     topPanes m' !! i
     = Some (set_items
               (SetHeight (Z.min (len (Items (items p))) (h / 2 - 2))
                  (items p)) p)) /\
  (focusIndex m < len (topPanes m) ->
   outputPane m' = set_Height (h / 2) (set_Width (w - 2) (outputPane m))).
Proof.
  intros Hw Hh Hu. simpl in Hu.
  assert (int_div h 2 = h / 2) as Hdiv.
  { unfold int_div. rewrite Z.quot_div_nonneg by lia.
    apply wrap_small. split; [| apply Z.div_lt_upper_bound; lia].
    pose proof (Z.div_pos h 2). lia. }
  assert (0 <= h / 2 < 2 ^ 63) as Hh2.
  { split; [apply Z.div_pos; lia | apply Z.div_lt_upper_bound; lia]. }
  assert (int_sub (h / 2) 2 = h / 2 - 2) as Hsub
    by (apply wrap_small; lia).
  assert (int_sub w 2 = w - 2) as Hsubw by (apply wrap_small; lia).
  split.
  - intros i p Hne Hp.
    rewrite (update_focused_others _ _ _ _ i Hu) by done.
    unfold resize. simpl. change (map ?g ?l) with (g <$> l).
    rewrite list_lookup_fmap, Hp. simpl. rewrite Hdiv, Hsub.
    do 3 f_equal.
    destruct (len (Items (items p)) <? h / 2 - 2) eqn:Hlt; lia.
  - intros Hlt.
    assert (focusIndex (resize w h m) < len (topPanes (resize w h m)))
      as Hlt'.
    { unfold resize, len. simpl. change (map ?g ?l) with (g <$> l).
      by rewrite length_fmap. }
    rewrite (update_focused_outputPane _ _ _ _ Hlt' Hu).
    unfold resize. simpl. by rewrite Hdiv, Hsubw.
Qed.

End Size.

Lemma X11_size_is_last_resize_or_zero_witness :
  result (@program arrows session) = Ok session_end /\
  (width (loop session_end), height (loop session_end)) = (120, 40) /\
  (width (copy session_end), height (copy session_end)) = (80, 24).
Proof.
  assert (result (@program arrows session) = Ok session_end) as Hp
    by reflexivity.
  split; [exact Hp |].
  exact (@X11_size_is_last_resize_or_zero arrows session session_end Hp).
Defined.

Lemma X12_resize_heights_witness :
  0 <= 80 < 2 ^ 63 /\ 0 <= 2 < 2 ^ 63 /\
  topPanes (after [WindowSizeMsg 80 2]) !! 1%nat
  = Some {| pane_title := "Pane 2";
            items := SetHeight (-1)
                       (createList "Pane 2"
                          ["Option X"; "Option Y"; "Option Z"] 10 false);
            isMenu := true; focused := false |}.
Proof.
  assert (0 <= 80 < 2 ^ 63) as Hw by lia.
  assert (0 <= 2 < 2 ^ 63) as Hh by lia.
  split; [exact Hw |]. split; [exact Hh |].
  assert (result (@Update arrows write_ok initialModel (WindowSizeMsg 80 2))
          = Ok (after [WindowSizeMsg 80 2], CmdNil)) as Hu by reflexivity.
  destruct (@X12_resize_heights arrows write_ok initialModel _ 80 2 CmdNil
              Hw Hh Hu) as [Hpanes _].
  rewrite (Hpanes 1%nat
             {| pane_title := "Pane 2";
                items := createList "Pane 2"
                           ["Option X"; "Option Y"; "Option Z"] 10 false;
                isMenu := true; focused := false |});
    [reflexivity | discriminate | reflexivity].
Defined.

(** ** View *)

Section Frames.
Context `{Components}.

(** X13.  In every model the event loop reaches, [View] returns a frame
    of five boxes, the four list panes in their order and then the output
    pane, and exactly one of the five has the focused border: the one at
    position [focusIndex]. *)
Theorem X13_one_focused_border (evs : list (writer * Msg)) (m : model) :
  result (run evs initialModel) = Ok m ->
  exists f,
    View m = ([EBufRead], Ok f) /\
    length (styles f) = 5%nat /\
    (forall i : nat,
       styles f !! i = Some focusedBorderStyle <-> Z.of_nat i = focusIndex m).
Proof.
  intros Hr. destruct initialModel_focus_ok as [Hs0 Hf0].
  apply run_focus_ok in Hr as (_ & [H0 [Hlt Hfl]] & Hl); [| done | done].
  eexists. split; [reflexivity |]. cbn [topRow output].
  split.
  - unfold styles. cbn [topRow output].
    change (map ?g ?l) with (g <$> l).
    rewrite length_fmap, length_app, length_fmap. simpl. rewrite Hl.
    reflexivity.
  - assert (styles
              {| topRow := _; output := _ |}
            = (fun b : bool =>
                 if b then focusedBorderStyle else borderStyle)
                <$> focus_flags m) as ->.
    { unfold styles, focus_flags. cbn [topRow output].
      change (map ?g ?l) with (g <$> l).
      rewrite !fmap_app. f_equal.
      - rewrite <- !list_fmap_compose. apply list_fmap_ext.
        intros ? p _. simpl. by destruct (focused p).
      - simpl. by destruct (outputPaneFocused m). }
    intros i. rewrite list_lookup_fmap. split.
    + destruct (focus_flags m !! i) as [b |] eqn:Hb; [| done].
      simpl. intros Hst. destruct b; [| done].
      apply Hfl in Hb. destruct Hb as [Hb _]. specialize (Hb eq_refl). lia.
    + intros Hi.
      destruct (lookup_lt_is_Some_2 (focus_flags m) i) as [b Hb]; [lia |].
      rewrite Hb. simpl. apply Hfl in Hb as Hiff.
      destruct Hiff as [_ Hiff]. rewrite Hiff by lia. done.
Qed.

End Frames.

Lemma X13_one_focused_border_witness :
  result (@run arrows [(write_ok, tab); (write_ok, tab); (write_ok, down)]
            initialModel) = Ok at_cmd2 /\
  exists f, @View arrows at_cmd2 = ([EBufRead], Ok f) /\
            styles f = [borderStyle; borderStyle; focusedBorderStyle;
                        borderStyle; borderStyle].
Proof.
  assert (result (@run arrows
                    [(write_ok, tab); (write_ok, tab); (write_ok, down)]
                    initialModel) = Ok at_cmd2) as Hr by reflexivity.
  split; [exact Hr |].
  destruct (@X13_one_focused_border arrows _ at_cmd2 Hr) as (f & Hf & _).
  exists f. split; [exact Hf |].
  injection Hf as <-. reflexivity.
Defined.

(** ** listenToServer *)

Section Reader.
Context `{Components}.

Lemma listen_loop_line line reads m :
  listen_loop (inl line :: reads) m
  = (locked_append ++ effects (listen_loop reads (received line m)),
     result (listen_loop reads (received line m))).
Proof.
  cbn [listen_loop]. rewrite listen_turn_eq.
  unfold mbind, M_bind, received.
  by destruct (listen_loop reads _).
Qed.

Lemma listen_loop_lines (lines : list string) (tail : list read_result) m :
  listen_loop ((inl <$> lines) ++ tail) m
  = (concat ((fun _ => locked_append) <$> lines)
     ++ effects (listen_loop tail
                   (foldl (fun m line => received line m) m lines)),
     result (listen_loop tail
               (foldl (fun m line => received line m) m lines))).
Proof.
  revert m. induction lines as [| line lines IH]; intros m.
  - cbn [fmap list_fmap app concat foldl].
    by destruct (listen_loop tail m).
  - cbn [fmap list_fmap app]. rewrite listen_loop_line.
    change (list_fmap _ _ ?f ?l) with (f <$> l). rewrite IH.
    cbn [effects result fst snd concat foldl]. by rewrite app_assoc.
Qed.

Lemma received_lines (lines : list string) m :
  outputPane (foldl (fun m line => received line m) m lines)
  = after_lines lines (outputPane m) /\
  rest_of (foldl (fun m line => received line m) m lines) = rest_of m.
Proof.
  revert m. induction lines as [| line lines IH]; intros m; [done |].
  cbn [foldl after_lines]. destruct (IH (received line m)) as [-> ->].
  done.
Qed.

(** X14.  The reader leaves its loop at the first read error, and only
    then.  Started with a connection, when the reads return the lines
    l1 .. ln and then an error, [listenToServer] handles the n lines in
    their order, each between Lock and Unlock, reports the error on stderr
    and returns: whatever could be read afterwards is never looked at.
    When the reads return the lines only, it has made the same changes and
    is still waiting for a read.  Each line sets the content of the output
    pane to the text [View] returns followed by the line; nothing else in
    the model changes. *)
Theorem X14_reader_stops_at_first_error (lines : list string) (err : string)
    (rest : list read_result) (m : model) (c : conn) :
  conn9002 m = Some c ->
  exists m',
    listenToServer ((inl <$> lines) ++ inr err :: rest) m
    = (concat ((fun _ => locked_append) <$> lines)
       ++ [EStderr ("Error reading from port 9002: " +:+ err +:+ newline)],
       Ok (m', true)) /\
    listenToServer (inl <$> lines) m
    = (concat ((fun _ => locked_append) <$> lines), Ok (m', false)) /\
    outputPane m' = after_lines lines (outputPane m) /\
    rest_of m' = rest_of m.
Proof.
  intros Hc. unfold listenToServer. rewrite Hc.
  exists (foldl (fun m line => received line m) m lines).
  rewrite listen_loop_lines.
  rewrite <- (app_nil_r (inl <$> lines)) at 1. rewrite listen_loop_lines.
  cbn [listen_loop effects result fst snd]. rewrite app_nil_r.
  split; [done |]. split; [done |]. apply received_lines.
Qed.

(** X15.  Started over a nil connection, [listenToServer] panics at its
    first read.  Started with a connection, whatever the reads return, it
    does not panic; it has returned exactly when one of the reads was an
    error, and is otherwise still waiting for a read.  Every access it
    makes to the output pane is between a Lock and the next Unlock, and it
    writes to no connection.  The model it holds differs from the one it
    got in the content of the output pane only: the lines read before the
    first error have been put there one after the other, each after the
    text [View] returned; the size and the offset of the viewport are as
    before. *)
Theorem X15_reader_is_guarded (reads : list read_result) (m : model) :
  match conn9002 m with
  | None => listenToServer reads m = ([], Panic nil_dereference)
  | Some _ =>
      guarded (effects (listenToServer reads m)) = true /\
      Forall (fun e => is_write e = false)
        (effects (listenToServer reads m)) /\
      exists m',
        result (listenToServer reads m) = Ok (m', existsb is_error reads) /\
        outputPane m' = after_lines (lines_read reads) (outputPane m) /\
        geometry (outputPane m') = geometry (outputPane m) /\
        rest_of m' = rest_of m
  end.
Proof.
  unfold listenToServer. destruct (conn9002 m) as [c |]; [| done].
  revert m. induction reads as [| [line | err] reads IH]; intros m.
  - repeat split; [done |]. by exists m.
  - rewrite listen_loop_line. cbn [effects result fst snd].
    destruct (IH (received line m)) as (Hg & Hw & m' & Hr & Ho & Hy & Hrest).
    split; [exact Hg |]. split.
    + apply Forall_app. split; [repeat constructor | exact Hw].
    + exists m'. split; [exact Hr |].
      split; [by rewrite Ho |]. split; [by rewrite Hy | by rewrite Hrest].
  - repeat split; [repeat constructor |]. by exists m.
Qed.

End Reader.

Lemma X14_reader_stops_at_first_error_witness :
  conn9002 (copy after_x) = Some (Conn port9002) /\
  exists m',
    @listenToServer arrows
      [inl ("y" +:+ newline); inr "EOF"; inl ("z" +:+ newline)]
      (copy after_x)
    = (locked_append
       ++ [EStderr ("Error reading from port 9002: " +:+ "EOF"
                      +:+ newline)],
       Ok (m', true)) /\
    content (outputPane m') = content (outputPane (copy after_xy)).
Proof.
  split; [reflexivity |].
  destruct (@X14_reader_stops_at_first_error arrows [("y" +:+ newline)]
              "EOF" [inl ("z" +:+ newline)] (copy after_x)
              (Conn port9002) eq_refl) as (m' & He & _ & Ho & _).
  exists m'. split; [exact He |]. rewrite Ho.
  vm_compute. reflexivity.
Defined.

(* The reader started by hand on the model of the event loop, which never
   holds a connection. *)
Lemma listenToServer_without_connection :
  @listenToServer arrows [inl ("y" +:+ newline)] (loop after_x)
  = ([], Panic nil_dereference).
Proof. reflexivity. Qed.

(** ** createList *)

(** X16.  [createList] keeps the labels: the list it returns holds one
    item per label, in the order given, with that label as title and
    filter value, an empty description and nothing selected; its cursor is
    at 0, its title is the title given, and its height is
    min(number of labels, height). *)
Theorem X16_createList_labels (t : string) (labels : list string)
    (h : Z) (foc : bool) :
  let l := createList t labels h foc in
  FilterValue <$> Items l = labels /\
  Items l = plain_item <$> labels /\
  Index l = 0 /\
  Title l = t /\
  delegate_focused (delegate l) = foc /\
  list_height l = Z.min (len labels) h.
Proof.
  simpl. unfold createList, list_New, Items, Index. simpl.
  change (map ?g ?l) with (g <$> l).
  split.
  - rewrite <- list_fmap_compose.
    rewrite <- (list_fmap_id labels) at 2. by apply list_fmap_ext.
  - repeat split. destruct (len labels >? h) eqn:Hgt; lia.
Qed.

(** ** updatePaneDelegates *)

Section Delegates.
Context `{C : Components}.
Hypothesis Hlist : keeps_title_and_delegate C.

(** X17.  The cursor is drawn in the focused pane only.  Let the list
    widget leave its delegate alone.  In every model the event loop
    reaches, the delegate of the list at position i has its [focused] flag
    set if and only if i is [focusIndex]; with the focus on the output
    pane no delegate has it. *)
Theorem X17_delegate_follows_focus (evs : list (writer * Msg)) (m : model)
    (i : nat) (p : pane) :
  result (run evs initialModel) = Ok m ->
  topPanes m !! i = Some p ->
  (delegate_focused (delegate (items p)) = true <->
   Z.of_nat i = focusIndex m) /\
  (focusIndex m = 4 -> delegate_focused (delegate (items p)) = false).
Proof.
  intros Hr Hp. destruct initialModel_focus_ok as [Hs Hf].
  pose proof (run_panes_ok Hlist _ _ _ Hs Hf initialModel_panes_ok Hr)
    as Hok.
  apply run_focus_ok in Hr as (_ & [H0 [_ Hfl]] & Hl); [| done | done].
  destruct (Forall_lookup_1 _ _ _ _ Hok Hp) as [_ ->].
  assert (focus_flags m !! i = Some (focused p)) as Hflag.
  { unfold focus_flags. apply lookup_app_l_Some.
    by rewrite list_lookup_fmap, Hp. }
  apply Hfl in Hflag. apply lookup_lt_Some in Hp. rewrite Hl in Hp.
  simpl in Hp. split.
  - rewrite Hflag. lia.
  - intros H4. destruct (focused p); [| done].
    destruct Hflag as [Hflag _]. specialize (Hflag eq_refl). lia.
Qed.

End Delegates.

Lemma X17_delegate_follows_focus_witness :
  keeps_title_and_delegate arrows /\
  result (@run arrows [(write_ok, tab); (write_ok, tab); (write_ok, down)]
            initialModel) = Ok at_cmd2 /\
  topPanes at_cmd2 !! 2%nat = Some (commands_at 1) /\
  (delegate_focused (delegate (items (commands_at 1))) = true <->
   Z.of_nat 2 = focusIndex at_cmd2).
Proof.
  assert (result (@run arrows
                    [(write_ok, tab); (write_ok, tab); (write_ok, down)]
                    initialModel) = Ok at_cmd2) as Hr by reflexivity.
  assert (topPanes at_cmd2 !! 2%nat = Some (commands_at 1)) as Hp
    by reflexivity.
  split; [exact arrows_keeps_title_and_delegate |].
  split; [exact Hr |]. split; [exact Hp |].
  exact (proj1 (@X17_delegate_follows_focus arrows
                  arrows_keeps_title_and_delegate _ at_cmd2 2%nat
                  (commands_at 1) Hr Hp)).
Defined.
